(** * bdd100k2yolo: BDD100K polygon labels to YOLO text labels

    A shallow embedding of [bdd100k2yolo.py] and the properties of its
    category indexer, converter and manifest writer. *)

From Stdlib Require Import ZArith Strings.String Strings.Ascii Floats.SpecFloat.
From stdpp Require Import base gmap sets list strings sorting pretty.

Local Open Scope string_scope.
Local Open Scope list_scope.
Local Open Scope nat_scope.

(** ** Data model

    The parsed JSON label file.  A record is a JSON object with the keys
    ['name'] and ['labels']; a label may or may not carry ['category'] and
    ['poly2d']; a polygon carries ['vertices'], a sequence of [x, y] pairs
    of JSON numbers.  [json.load] yields an [int] for a literal without
    fraction or exponent and a binary64 [float] otherwise. *)

Definition float64 := spec_float.

Inductive Number :=
  | PyInt (n : Z)
  | PyFloat (f : float64).

Record Polygon := { vertices : list (Number * Number) }.

Record Label := {
  category : option string;
  poly2d : option (list Polygon)
}.

Record AnnotationRecord := {
  name : string;
  labels : list Label
}.

(** ** Lexicographic order on strings

    Python compares [str] values by code point; on UTF-8 encoded strings
    this is the bytewise order computed by [String.compare]. *)

Definition str_le (s1 s2 : string) : Prop := String.leb s1 s2 = true.
Definition str_lt (s1 s2 : string) : Prop := String.ltb s1 s2 = true.

#[global] Instance str_le_dec s1 s2 : Decision (str_le s1 s2).
Proof. unfold str_le. apply _. Defined.

(** ** Category indexer *)

(** Inner loop of [update_category_mapping] (lines 14-16). *)
Fixpoint add_label_categories (ls : list Label) (categories : gset string)
  : gset string :=
  match ls with
  | [] => categories
  | label :: ls' =>
      match category label with
      | Some c => add_label_categories ls' (categories ∪ {[ c ]})
      | None => add_label_categories ls' categories
      end
  end.

(** Outer loop of [update_category_mapping] (line 13). *)
Fixpoint collect_categories (json_data : list AnnotationRecord)
  (categories : gset string) : gset string :=
  match json_data with
  | [] => categories
  | item :: rest =>
      collect_categories rest (add_label_categories (labels item) categories)
  end.

(** [sorted(categories)]: the elements of the set in ascending order. *)
Definition sorted (categories : gset string) : list string :=
  merge_sort str_le (elements categories).

(** [enumerate(l)], with the index in second position as the dict
    comprehension of line 18 stores it. *)
Fixpoint enumerate_from (i : nat) (l : list string) : list (string * nat) :=
  match l with
  | [] => []
  | c :: l' => (c, i) :: enumerate_from (S i) l'
  end.

(** A Python dict keeps insertion order: an association list. *)
Definition CategoryMapping := list (string * nat).

Definition update_category_mapping (json_data : list AnnotationRecord)
  : CategoryMapping :=
  let categories := collect_categories json_data ∅ in
  enumerate_from 0 (sorted categories).

Definition mk_label (c : string) : Label :=
  {| category := Some c; poly2d := None |}.

(** ** Python exceptions, the outside world and the effect monad *)

Inductive PyExn :=
  | KeyError (key : string)
  | IndexError
  | OverflowError
  | FileNotFoundError (path : string)
  | SameFileError (path : string)
  | JSONDecodeError.

(** What the program does to the outside, in program order. *)
Inductive Event :=
  | EvMakedirs (path : string)
  | EvCopy (src dst : string)
  | EvOpenW (path : string)
  | EvWrite (path : string) (text : string)
  | EvPrint (text : string).

(** The file system maps a path to the file's content; [log] is the
    history of effects, oldest first. *)
Record World := {
  fs : gmap string string;
  log : list Event
}.

Inductive Outcome (A : Type) :=
  | Ok (a : A)
  | Raise (e : PyExn).
Arguments Ok {A} a.
Arguments Raise {A} e.

Definition Py (A : Type) : Type := World → Outcome A * World.

Definition ret {A} (a : A) : Py A := λ w, (Ok a, w).

Definition bind {A B} (m : Py A) (k : A → Py B) : Py B :=
  λ w, match m w with
       | (Ok a, w') => k a w'
       | (Raise e, w') => (Raise e, w')
       end.

Definition raise {A} (e : PyExn) : Py A := λ w, (Raise e, w).

(** A computation without effects, run inside the program. *)
Definition lift {A} (o : Outcome A) : Py A := λ w, (o, w).

Notation "'let!' x ':=' m 'in' k" := (bind m (λ x, k))
  (at level 10, x name, m at level 100, k at level 200,
   format "'[v' 'let!'  x  ':='  m  'in'  '/' k ']'").
Notation "'let!' ' pat ':=' m 'in' k" :=
  (bind m (λ x, match x with pat => k end))
  (at level 10, pat pattern, m at level 100, k at level 200,
   format "'[v' 'let!'  ' pat  ':='  m  'in'  '/' k ']'").
Notation "m >> k" := (bind m (λ _, k))
  (at level 100, k at level 200, right associativity).

Definition emit (ev : Event) : Py unit :=
  λ w, (Ok tt, {| fs := fs w; log := log w ++ [ev] |}).

(** [for x in l: acc = body(x, acc)], stopping at the first exception. *)
Fixpoint for_each {A S} (body : A → S → Py S) (l : list A) (acc : S) : Py S :=
  match l with
  | [] => ret acc
  | x :: l' => let! acc' := body x acc in for_each body l' acc'
  end.

(** [for x in l: body(x)] for a body that only has effects. *)
Fixpoint for_each_ {A} (body : A → Py unit) (l : list A) : Py unit :=
  match l with
  | [] => ret tt
  | x :: l' => body x >> for_each_ body l'
  end.

(** *** Library calls *)

Definition print (text : string) : Py unit := emit (EvPrint text).

Definition makedirs (path : string) : Py unit := emit (EvMakedirs path).

(** [shutil.copy2(src, dst)]: fails when [src] does not exist and refuses
    to copy a file onto itself. *)
Definition copy2 (src dst : string) : Py unit :=
  λ w, match fs w !! src with
       | None => (Raise (FileNotFoundError src), w)
       | Some content =>
           if decide (src = dst) then (Raise (SameFileError src), w)
           else (Ok tt, {| fs := <[dst := content]> (fs w);
                           log := log w ++ [EvCopy src dst] |})
       end.

(** [open(path, 'w')]: creates the file or truncates it. *)
Definition open_w (path : string) : Py unit :=
  λ w, (Ok tt, {| fs := <[path := ""]> (fs w);
                  log := log w ++ [EvOpenW path] |}).

(** [f.write(text)] on a file opened at [path]. *)
Definition write (path text : string) : Py unit :=
  λ w, (Ok tt, {| fs := <[path := default "" (fs w !! path) +:+ text]> (fs w);
                  log := log w ++ [EvWrite path text] |}).

(** The parts of the Python library whose result depends on the platform
    ([os.path]) or that are out of scope ([json]): [path_join a b] is
    [os.path.join(a, b)], [splitext p] is [os.path.splitext(p)], and
    [json_loads] parses the text of a label file, [None] when malformed. *)
Class PyLib := {
  path_join : string → string → string;
  splitext : string → string * string;
  json_loads : string → option (list AnnotationRecord)
}.

(** ** Numbers and their formatting *)

Definition prec : Z := 53.
Definition emax : Z := 1024.

(** The [float] of a positive [int] that is exactly representable. *)
Definition float_of_pos (n : positive) : float64 :=
  binary_normalize prec emax (Zpos n) 0 false.

(** [x / d] for the [int] literal [d]: binary64 division for a [float]
    [x]; for an [int] [x] the correctly rounded quotient, or
    [OverflowError] when it is too large for a [float]. *)
Definition truediv (x : Number) (d : positive) : Outcome float64 :=
  match x with
  | PyFloat f => Ok (SFdiv prec emax f (float_of_pos d))
  | PyInt Z0 => Ok (S754_zero false)
  | PyInt (Zpos n) =>
      match SFdiv prec emax (S754_finite false n 0) (float_of_pos d) with
      | S754_infinity _ => Raise OverflowError
      | q => Ok q
      end
  | PyInt (Zneg n) =>
      match SFdiv prec emax (S754_finite true n 0) (float_of_pos d) with
      | S754_infinity _ => Raise OverflowError
      | q => Ok q
      end
  end.

(** [num / den] rounded to the nearest integer, ties to even. *)
Definition round_half_even (num den : Z) : Z :=
  let q := (num / den)%Z in
  let r := (num mod den)%Z in
  match (2 * r ?= den)%Z with
  | Lt => q
  | Gt => (q + 1)%Z
  | Eq => if Z.even q then q else (q + 1)%Z
  end.

(** The magnitude [m * 2^e] in millionths, correctly rounded. *)
Definition micro6 (m : positive) (e : Z) : Z :=
  match e with
  | Zneg p => round_half_even (Zpos m * 10 ^ 6) (2 ^ Zpos p)
  | _ => (Zpos m * 2 ^ e * 10 ^ 6)%Z
  end.

Definition pad6 (n : Z) : string :=
  let s := pretty (Z.to_N n) in
  String.concat "" (replicate (6 - String.length s) "0") +:+ s.

(** A count [n] of millionths written in fixed notation. *)
Definition fixed6 (sign : bool) (n : Z) : string :=
  (if sign then "-" else "") +:+ pretty (Z.to_N (n / 10 ^ 6)) +:+ "."
    +:+ pad6 (n mod 10 ^ 6).

(** [f"{x:.6f}"] *)
Definition format_6f (x : float64) : string :=
  match x with
  | S754_nan => "nan"
  | S754_infinity s => if s then "-inf" else "inf"
  | S754_zero s => fixed6 s 0
  | S754_finite s m e => fixed6 s (micro6 m e)
  end.

(** The number a [format_6f] output denotes, in millionths. *)
Definition millionths (x : float64) : option Z :=
  match x with
  | S754_zero _ => Some 0%Z
  | S754_finite s m e => Some (if s then - micro6 m e else micro6 m e)%Z
  | _ => None
  end.

(** ** Dictionaries that keep insertion order *)

(** [category in category_mapping] and [category_mapping[category]]. *)
Fixpoint mapping_get (category : string) (m : CategoryMapping) : option nat :=
  match m with
  | [] => None
  | (c, idx) :: m' => if decide (c = category) then Some idx
                      else mapping_get category m'
  end.

(** [collections.Counter]: absent keys count 0, a new key goes last. *)
Definition Counter := list (string * nat).

Fixpoint counter_get (key : string) (c : Counter) : nat :=
  match c with
  | [] => 0
  | (k, n) :: c' => if decide (k = key) then n else counter_get key c'
  end.

(** [counter[key] += 1] *)
Fixpoint counter_incr (key : string) (c : Counter) : Counter :=
  match c with
  | [] => [(key, 1)]
  | (k, n) :: c' => if decide (k = key) then (k, S n) :: c'
                    else (k, n) :: counter_incr key c'
  end.

(** ** Converter *)

(** The literals of line 59. *)
Definition IMAGE_WIDTH : positive := 1280.
Definition IMAGE_HEIGHT : positive := 720.

(** The newline character. *)
Definition NL : string := String (ascii_of_nat 10) "".

(** Lines 59-60: normalise the vertices and flatten them; the first
    division that fails decides the exception. *)
Fixpoint poly_flat (poly : list (Number * Number)) : Outcome (list float64) :=
  match poly with
  | [] => Ok []
  | (x, y) :: poly' =>
      match truediv x IMAGE_WIDTH with
      | Raise e => Raise e
      | Ok xn =>
          match truediv y IMAGE_HEIGHT with
          | Raise e => Raise e
          | Ok yn =>
              match poly_flat poly' with
              | Raise e => Raise e
              | Ok rest => Ok (xn :: yn :: rest)
              end
          end
      end
  end.

(** Lines 61 and 63: the text of one label. *)
Definition yolo_line (category_id : nat) (flat : list float64) : string :=
  pretty category_id +:+ " " +:+ String.concat " " (format_6f <$> flat)
    +:+ NL.

Definition warning_unmapped (category : string) : string :=
  "Warning: Category '" +:+ category
    +:+ "' found in JSON but not in category_mapping".

(** The accumulators of [bdd100k_to_yolov8] (lines 26-28). *)
Record Tally := {
  categories_in_json : Counter;
  processed_images : gset string;
  missing_images : list string
}.

Section Converter.
Context `{PyLib}.

(** [load_json] (lines 7-9) *)
Definition load_json (file_path : string) : Py (list AnnotationRecord) :=
  λ w, match fs w !! file_path with
       | None => (Raise (FileNotFoundError file_path), w)
       | Some text =>
           match json_loads text with
           | None => (Raise JSONDecodeError, w)
           | Some data => (Ok data, w)
           end
       end.

(** Body of the loop over the labels of a record (lines 47-63), on the
    counter it updates. *)
Definition convert_label (output_file : string)
    (category_mapping : CategoryMapping) (label : Label)
    (counts : Counter) : Py Counter :=
  match poly2d label with
  | None => ret counts
  | Some polys =>
      match category label with
      | None => raise (KeyError "category")
      | Some category =>
          let counts := counter_incr category counts in
          match mapping_get category category_mapping with
          | None => print (warning_unmapped category) >> ret counts
          | Some category_id =>
              match polys with
              | [] => raise IndexError
              | first :: _ =>
                  let poly := vertices first in
                  if decide (length poly < 3)%nat then ret counts
                  else
                    let! flat := lift (poly_flat poly) in
                    write output_file (yolo_line category_id flat) >>
                    ret counts
              end
          end
      end
  end.

(** Body of the loop over the records (lines 31-63). *)
Definition convert_item (output_dir image_src_dir image_dst_dir : string)
    (category_mapping : CategoryMapping) (item : AnnotationRecord)
    (t : Tally) : Py Tally :=
  let image_file := name item in
  let processed := processed_images t ∪ {[ image_file ]} in
  let output_file :=
    path_join output_dir ((splitext image_file).1 +:+ ".txt") in
  let src_image_path := path_join image_src_dir image_file in
  let dst_image_path := path_join image_dst_dir image_file in
  λ w, match copy2 src_image_path dst_image_path w with
       | (Raise (FileNotFoundError _), w') =>
           (Ok {| categories_in_json := categories_in_json t;
                  processed_images := processed;
                  missing_images := missing_images t ++ [image_file] |}, w')
       | (Raise e, w') => (Raise e, w')
       | (Ok _, w') =>
           (open_w output_file >>
            let! counts := for_each (convert_label output_file category_mapping)
                             (labels item) (categories_in_json t) in
            ret {| categories_in_json := counts;
                   processed_images := processed;
                   missing_images := missing_images t |}) w'
       end.

(** Lines 66-76: the report printed after the loop. *)
Definition print_report (t : Tally) : Py unit :=
  print (NL +:+ "Category statistics:") >>
  for_each_ (λ '(category, count),
               print (category +:+ ": " +:+ pretty count +:+ " instances"))
            (categories_in_json t) >>
  match missing_images t with
  | [] => ret tt
  | _ =>
      print (NL +:+ "Warning: " +:+ pretty (length (missing_images t))
               +:+ " images were not found:") >>
      for_each_ (λ img, print ("  " +:+ img)) (take 10 (missing_images t)) >>
      if decide (10 < length (missing_images t))%nat
      then print ("  ... and " +:+ pretty (length (missing_images t) - 10)%nat
                    +:+ " more.")
      else ret tt
  end.

(** [bdd100k_to_yolov8] (lines 20-78) *)
Definition bdd100k_to_yolov8
    (input_json output_dir image_src_dir image_dst_dir : string)
    (category_mapping : CategoryMapping)
  : Py (nat * nat * Counter) :=
  let! data := load_json input_json in
  makedirs output_dir >>
  makedirs image_dst_dir >>
  let! t := for_each (convert_item output_dir image_src_dir image_dst_dir
                        category_mapping)
              data
              {| categories_in_json := [];
                 processed_images := ∅;
                 missing_images := [] |} in
  print_report t >>
  ret (size (processed_images t), length (missing_images t),
       categories_in_json t).

End Converter.

(** ** [repr] of a list of strings

    [repr] of a [str] picks double quotes when the text has a single quote
    and no double quote, and escapes the quote, the backslash and control
    characters.  Bytes above 127 belong to UTF-8 sequences and are kept,
    which is [repr] for printable code points. *)

Definition hex_digit (n : N) : ascii :=
  match n with
  | 0 => "0" | 1 => "1" | 2 => "2" | 3 => "3" | 4 => "4" | 5 => "5"
  | 6 => "6" | 7 => "7" | 8 => "8" | 9 => "9" | 10 => "a" | 11 => "b"
  | 12 => "c" | 13 => "d" | 14 => "e" | _ => "f"
  end%char%N.

Fixpoint contains_char (c : ascii) (s : string) : bool :=
  match s with
  | EmptyString => false
  | String a s' => if decide (a = c) then true else contains_char c s'
  end.

Definition repr_char (quote : ascii) (a : ascii) : string :=
  let n := N_of_ascii a in
  if decide (a = quote ∨ a = "\"%char) then String "\" (String a "")
  else if decide (n = 9)%N then "\t"
  else if decide (n = 10)%N then "\n"
  else if decide (n = 13)%N then "\r"
  else if decide (n < 32 ∨ n = 127)%N
       then String "\" (String "x" (String (hex_digit (n / 16))
                                      (String (hex_digit (n mod 16)) "")))
  else String a "".

Fixpoint repr_body (quote : ascii) (s : string) : string :=
  match s with
  | EmptyString => ""
  | String a s' => repr_char quote a +:+ repr_body quote s'
  end.

Definition repr_str (s : string) : string :=
  let quote : ascii :=
    if contains_char "'" s && negb (contains_char (ascii_of_nat 34) s)
    then ascii_of_nat 34 else "'"%char in
  String quote (repr_body quote s) +:+ String quote "".

Definition repr_list (l : list string) : string :=
  "[" +:+ String.concat ", " (repr_str <$> l) +:+ "]".

(** ** Driver *)

(** The tuple [process_dataset] returns. *)
Record SplitResult := {
  processed_count : nat;
  missing_count : nat;
  initial_json_entries : nat;
  split_category_mapping : CategoryMapping;
  category_instances : Counter
}.

Section Driver.
Context `{PyLib}.

(** Lines 81-83: the label file of a split and its output directories. *)
Definition split_json (base_dir split : string) : string :=
  path_join (path_join (path_join (path_join base_dir "labels") "sem_seg")
               "polygons") ("sem_seg_" +:+ split +:+ ".json").

Definition split_labels_dir (output_base_dir split : string) : string :=
  path_join (path_join output_base_dir "labels") split.

Definition split_images_dir (output_base_dir split : string) : string :=
  path_join (path_join output_base_dir "images") split.

(** [process_dataset] (lines 80-110) *)
Definition process_dataset (base_dir output_base_dir split image_src_dir : string)
  : Py SplitResult :=
  let input_json := split_json base_dir split in
  let output_dir := split_labels_dir output_base_dir split in
  let image_dst_dir := split_images_dir output_base_dir split in
  let! json_data := load_json input_json in
  let category_mapping := update_category_mapping json_data in
  print (NL +:+ "Updated category mapping for " +:+ split +:+ " dataset:") >>
  for_each_ (λ '(category, idx), print ("  " +:+ category +:+ ": " +:+ pretty idx))
            category_mapping >>
  let initial := length json_data in
  print (NL +:+ "Before processing " +:+ split +:+ " dataset:") >>
  print ("Number of entries in " +:+ split +:+ " JSON file: " +:+ pretty initial) >>
  let! '(processed, missing, instances) :=
    bdd100k_to_yolov8 input_json output_dir image_src_dir image_dst_dir
      category_mapping in
  print (NL +:+ "After processing " +:+ split +:+ " dataset:") >>
  print ("Number of images processed and copied to YOLO " +:+ split
           +:+ " folder: " +:+ pretty processed) >>
  print ("Number of label files created in YOLO " +:+ split
           +:+ " folder: " +:+ pretty processed) >>
  print ("Number of missing images: " +:+ pretty missing) >>
  print (NL +:+ "All categories and instances found in " +:+ split +:+ " dataset:") >>
  for_each_ (λ category,
               print ("  " +:+ category +:+ ": "
                        +:+ pretty (counter_get category instances)
                        +:+ " instances"))
            (merge_sort str_le category_mapping.*1) >>
  ret {| processed_count := processed;
         missing_count := missing;
         initial_json_entries := initial;
         split_category_mapping := category_mapping;
         category_instances := instances |}.

Definition base_dir : string :=
  "D:\DataSet\BDD100K\bdd100k_sem_seg_labels_trainval\bdd100k".
Definition output_base_dir : string := "D:\DataSet\BDD100K\BDD100k_YOLO".
Definition train_images_src_dir : string :=
  "D:\DataSet\BDD100K\100k_images_train\bdd100k\images\100k\train".
Definition val_images_src_dir : string :=
  "D:\DataSet\BDD100K\100k_images_val\bdd100k\images\100k\val".

(** Lines 143-149: the text of the manifest. *)
Definition data_yaml_content (final_category_mapping : CategoryMapping) : string :=
  NL +:+ "train: " +:+ path_join (path_join output_base_dir "images") "train"
    +:+ NL +:+ "val: " +:+ path_join (path_join output_base_dir "images") "val"
    +:+ NL +:+ NL +:+ "nc: " +:+ pretty (length final_category_mapping)
    +:+ NL +:+ "names: " +:+ repr_list final_category_mapping.*1
    +:+ NL.

Definition print_split_summary (title : string) (r : SplitResult) : Py unit :=
  print title >>
  print ("  JSON entries: " +:+ pretty (initial_json_entries r)) >>
  print ("  Processed images: " +:+ pretty (processed_count r)) >>
  print ("  Missing images: " +:+ pretty (missing_count r)).

(** The entry point (lines 112-154). *)
Definition main : Py unit :=
  let! train_results :=
    process_dataset base_dir output_base_dir "train" train_images_src_dir in
  let! val_results :=
    process_dataset base_dir output_base_dir "val" val_images_src_dir in
  print (NL +:+ "Summary:") >>
  print_split_summary "Train dataset:" train_results >>
  print_split_summary (NL +:+ "Validation dataset:") val_results >>
  let final_category_mapping := split_category_mapping train_results in
  print (NL +:+ "All categories and total instances in the dataset:") >>
  for_each_
    (λ category,
       let train_instances :=
         counter_get category (category_instances train_results) in
       let val_instances :=
         counter_get category (category_instances val_results) in
       let total_instances := (train_instances + val_instances)%nat in
       print ("  " +:+ category +:+ ": " +:+ pretty total_instances
                +:+ " instances (Train: " +:+ pretty train_instances
                +:+ ", Val: " +:+ pretty val_instances +:+ ")"))
    (merge_sort str_le final_category_mapping.*1) >>
  let yaml_path := path_join output_base_dir "data.yaml" in
  open_w yaml_path >>
  write yaml_path (data_yaml_content final_category_mapping) >>
  print (NL +:+ "Conversion complete. Images copied and data.yaml file has been generated.").

End Driver.

(** ** A concrete library, for running the program on examples

    [posixpath.join] and [posixpath.splitext], and a parser given by a
    table from file texts to their parsed content. *)

Fixpoint last_index (c : ascii) (s : string) (i : nat) : option nat :=
  match s with
  | EmptyString => None
  | String a s' =>
      match last_index c s' (S i) with
      | Some j => Some j
      | None => if decide (a = c) then Some i else None
      end
  end.

Fixpoint all_dots (s : string) : bool :=
  match s with
  | EmptyString => true
  | String a s' => if decide (a = "."%char) then all_dots s' else false
  end.

Definition posix_splitext (p : string) : string * string :=
  let start := match last_index "/" p 0 with Some i => S i | None => 0 end in
  match last_index "." p 0 with
  | Some dot =>
      if bool_decide (start ≤ dot)%nat &&
         negb (all_dots (String.substring start (dot - start) p))
      then (String.substring 0 dot p,
            String.substring dot (String.length p - dot) p)
      else (p, "")
  | None => (p, "")
  end.

Definition ends_with_slash (s : string) : bool :=
  match last_index "/" s 0 with
  | Some i => bool_decide (S i = String.length s)
  | None => false
  end.

Definition posix_join (a b : string) : string :=
  match b with
  | String "/" _ => b
  | _ => if bool_decide (a = "") || ends_with_slash a then a +:+ b
         else a +:+ "/" +:+ b
  end.

Fixpoint table_get (text : string) (table : list (string * list AnnotationRecord))
  : option (list AnnotationRecord) :=
  match table with
  | [] => None
  | (t, data) :: table' => if decide (t = text) then Some data
                           else table_get text table'
  end.

Definition posix_lib (table : list (string * list AnnotationRecord)) : PyLib :=
  {| path_join := posix_join;
     splitext := posix_splitext;
     json_loads := λ text, table_get text table |}.

(** ** Vocabulary of the statements *)

(** The line a label contributes to the text file when the loop body of
    lines 47-63 completes: none unless the label has a polygon list, a
    mapped category and at least 3 vertices in its first polygon. *)
Definition label_line (category_mapping : CategoryMapping) (label : Label)
  : option string :=
  match poly2d label, category label with
  | Some (first :: _), Some c =>
      match mapping_get c category_mapping with
      | Some category_id =>
          if decide (length (vertices first) < 3)%nat then None
          else match poly_flat (vertices first) with
               | Ok flat => Some (yolo_line category_id flat)
               | Raise _ => None
               end
      | None => None
      end
  | _, _ => None
  end.

(** The text the labels of one record contribute, in order. *)
Fixpoint labels_text (category_mapping : CategoryMapping) (ls : list Label)
  : string :=
  match ls with
  | [] => ""
  | label :: ls' =>
      default "" (label_line category_mapping label)
        +:+ labels_text category_mapping ls'
  end.

Definition is_open (ev : Event) : bool :=
  match ev with EvOpenW _ => true | _ => false end.

Definition is_copy (ev : Event) : bool :=
  match ev with EvCopy _ _ => true | _ => false end.

Definition is_write (ev : Event) : bool :=
  match ev with EvWrite _ _ => true | _ => false end.

Definition is_print (ev : Event) : bool :=
  match ev with EvPrint _ => true | _ => false end.

(** Number of events of a kind in a history. *)
Definition count (kind : Event → bool) (evs : list Event) : nat :=
  length (filter (λ ev, kind ev = true) evs).

(** The effects of the loop body of lines 47-63 on a label it completes:
    a warning for an unmapped category, a write for a line, else nothing. *)
Definition label_events (output_file : string)
    (category_mapping : CategoryMapping) (label : Label) : list Event :=
  match poly2d label, category label with
  | Some _, Some c =>
      match mapping_get c category_mapping with
      | None => [EvPrint (warning_unmapped c)]
      | Some _ =>
          match label_line category_mapping label with
          | Some line => [EvWrite output_file line]
          | None => []
          end
      end
  | _, _ => []
  end.

(** The counter after the loop body of lines 47-63 completes on a label. *)
Definition label_count (label : Label) (counts : Counter) : Counter :=
  match poly2d label, category label with
  | Some _, Some c => counter_incr c counts
  | _, _ => counts
  end.

Section Paths.
Context `{PyLib}.

(** The text file of a record (line 33). *)
Definition label_path (output_dir : string) (item : AnnotationRecord) : string :=
  path_join output_dir ((splitext (name item)).1 +:+ ".txt").

(** The source and the destination of its image (lines 36-37). *)
Definition src_path (image_src_dir : string) (item : AnnotationRecord) : string :=
  path_join image_src_dir (name item).

Definition dst_path (image_dst_dir : string) (item : AnnotationRecord) : string :=
  path_join image_dst_dir (name item).

(** The world once the image of a record is copied and its text file is
    open (lines 40 and 45). *)
Definition opened (output_dir image_src_dir image_dst_dir : string)
    (item : AnnotationRecord) (content : string) (w : World) : World :=
  {| fs := <[label_path output_dir item := ""]>
             (<[dst_path image_dst_dir item := content]> (fs w));
     log := log w ++ [EvCopy (src_path image_src_dir item)
                             (dst_path image_dst_dir item);
                      EvOpenW (label_path output_dir item)] |}.
End Paths.

(** The accumulators after a record whose image was found, and after one
    whose image is missing (lines 32, 42, 49). *)
Definition tally_found (item : AnnotationRecord) (t : Tally) : Tally :=
  {| categories_in_json :=
       foldl (λ acc label, label_count label acc) (categories_in_json t)
             (labels item);
     processed_images := processed_images t ∪ {[ name item ]};
     missing_images := missing_images t |}.

Definition tally_missing (item : AnnotationRecord) (t : Tally) : Tally :=
  {| categories_in_json := categories_in_json t;
     processed_images := processed_images t ∪ {[ name item ]};
     missing_images := missing_images t ++ [name item] |}.

(** The lines of the report of lines 66-76. *)
Definition report_texts (t : Tally) : list string :=
  (NL +:+ "Category statistics:")
    :: ((λ '(category, count),
           category +:+ ": " +:+ pretty count +:+ " instances")
          <$> categories_in_json t)
    ++ match missing_images t with
       | [] => []
       | _ =>
           (NL +:+ "Warning: " +:+ pretty (length (missing_images t))
              +:+ " images were not found:")
             :: ((λ img, "  " +:+ img) <$> take 10 (missing_images t))
             ++ (if decide (10 < length (missing_images t))
                 then ["  ... and "
                         +:+ pretty (length (missing_images t) - 10)
                         +:+ " more."]
                 else [])
       end.

(** ** Example inputs *)

Definition square : Polygon :=
  {| vertices := [ (PyInt 0, PyInt 0); (PyInt 640, PyInt 0);
                   (PyInt 640, PyInt 360); (PyFloat (float_of_pos 320), PyInt 720) ] |}.

Definition segment : Polygon :=
  {| vertices := [ (PyInt 0, PyInt 0); (PyInt 640, PyInt 360) ] |}.

Definition car_label : Label :=
  {| category := Some "car"; poly2d := Some [square] |}.

Definition bike_label : Label :=
  {| category := Some "bike"; poly2d := Some [square] |}.

Definition short_label : Label :=
  {| category := Some "car"; poly2d := Some [segment] |}.

Definition uncategorised_label : Label :=
  {| category := None; poly2d := Some [square] |}.

Definition empty_poly_label : Label :=
  {| category := Some "car"; poly2d := Some [] |}.

Definition record_a : AnnotationRecord :=
  {| name := "a.jpg"; labels := [car_label] |}.

Definition record_b : AnnotationRecord :=
  {| name := "b.jpg"; labels := [car_label] |}.



(** A second record for the image of [record_a]. *)
Definition record_a' : AnnotationRecord :=
  {| name := "a.jpg"; labels := [bike_label; short_label] |}.

Definition example_table : list (string * list AnnotationRecord) :=
  [ ("[a, b]", [record_a; record_b]);
    ("[b]", [record_b]);
    ("[a, a']", [record_a; record_a']);
    ("[uncategorised]", [ {| name := "a.jpg"; labels := [uncategorised_label] |} ]);
    ("[empty poly2d]", [ {| name := "a.jpg"; labels := [empty_poly_label] |} ]) ].

Definition example_lib : PyLib := posix_lib example_table.

(** A file system with the image of [record_a] but not that of
    [record_b], and a label file with the given text. *)
Definition example_world (json_text : string) : World :=
  {| fs := {[ "in.json" := json_text; "src/a.jpg" := "JPEG of a" ]};
     log := [] |}.

Definition car_mapping : CategoryMapping := [("car", 0)].

(** A file system with the label files of both splits where the entry
    point looks for them, and the image of [record_a] in the train
    images. *)
Definition main_world : World :=
  {| fs := {[ split_json (H := example_lib) base_dir "train" := "[a, a']";
              split_json (H := example_lib) base_dir "val" := "[a, b]";
              posix_join train_images_src_dir "a.jpg" := "JPEG of a" ]};
     log := [] |}.

(** ** Vocabulary of the numeric statements *)

(** [fexp] at binary64: the exponent of a float with the given number of
    bits above the binary point. *)
Definition fexp64 (e : Z) : Z := Z.max (e - 53) (-1074).

(** The magnitude [m1 * 2^e1] is below [m2 * 2^e2]. *)
Definition mag_lt (m1 : positive) (e1 : Z) (m2 : positive) (e2 : Z) : Prop :=
  (Zpos m1 * 2 ^ (e1 - Z.min e1 e2) < Zpos m2 * 2 ^ (e2 - Z.min e1 e2))%Z.

(** [0 <= x <= hi] for a JSON number: an [int] in the interval, or a
    well-formed [float] for which Python's comparisons hold. *)
Definition in_range (x : Number) (hi : positive) : Prop :=
  match x with
  | PyInt n => (0 ≤ n ≤ Zpos hi)%Z
  | PyFloat f =>
      valid_binary prec emax f = true
      ∧ SFleb (S754_zero false) f = true
      ∧ SFleb f (float_of_pos hi) = true
  end.

(** A quotient whose text denotes a number between 0 and 1. *)
Definition in_unit_interval (q : float64) : Prop :=
  ∃ n, millionths q = Some n ∧ (0 ≤ n ≤ 10 ^ 6)%Z.

(** ** Vocabulary of the further properties *)

(** The labels of a category that carry a polygon list: what line 49
    counts. *)
Definition polygon_instances (c : string) (ls : list Label) : nat :=
  length (filter (λ label, is_Some (poly2d label) ∧ category label = Some c) ls).

(** All labels of a record sequence, in order. *)
Definition all_labels (data : list AnnotationRecord) : list Label :=
  data ≫= labels.

Section OutputPaths.
Context `{PyLib}.

(** The paths a run writes to: the text files, then the image copies. *)
Definition output_paths (output_dir image_dst_dir : string)
    (data : list AnnotationRecord) : list string :=
  (label_path output_dir <$> data) ++ (dst_path image_dst_dir <$> data).

(** No two records share an output path, no text file is an image copy,
    and no output path is the source of an image. *)
Definition paths_separate (output_dir image_src_dir image_dst_dir : string)
    (data : list AnnotationRecord) : Prop :=
  NoDup (output_paths output_dir image_dst_dir data)
  ∧ ∀ item, item ∈ data →
      src_path image_src_dir item ∉ output_paths output_dir image_dst_dir data.
End OutputPaths.

(** Every category of the records is a key of the mapping. *)
Definition covers (m : CategoryMapping) (data : list AnnotationRecord) : Prop :=
  ∀ item label c, item ∈ data → label ∈ labels item →
                  category label = Some c → is_Some (mapping_get c m).

(** The accumulators after a run in which every image is missing. *)
Definition tally_all_missing (data : list AnnotationRecord) (t : Tally) : Tally :=
  {| categories_in_json := categories_in_json t;
     processed_images := processed_images t ∪ list_to_set (name <$> data);
     missing_images := missing_images t ++ (name <$> data) |}.

(** A file system like [main_world] in which the image of [record_a] is
    also among the validation images. *)
Definition main_world_val : World :=
  {| fs := <[ posix_join val_images_src_dir "a.jpg" := "JPEG of a" ]>
             (fs main_world);
     log := [] |}.

(** A file system that holds nothing, and one that holds only the label
    file of the train split. *)
Definition empty_world : World := {| fs := ∅; log := [] |}.

Definition train_only_world : World :=
  {| fs := {[ split_json (H := example_lib) base_dir "train" := "[b]" ]};
     log := [] |}.
(** ** Sanity checks of the definitions on concrete inputs *)

Example ucm_car_bike :
  update_category_mapping
    [ {| name := "a.jpg"; labels := [mk_label "car"; mk_label "bike"] |};
      {| name := "b.jpg"; labels := [mk_label "car"] |} ]
  = [("bike", 0); ("car", 1)].
Proof. vm_compute. reflexivity. Qed.

Example format_half :
  format_6f (SFdiv prec emax (float_of_pos 640) (float_of_pos 1280)) = "0.500000".
Proof. vm_compute. reflexivity. Qed.

Example format_third :
  format_6f (SFdiv prec emax (float_of_pos 1) (float_of_pos 3)) = "0.333333".
Proof. vm_compute. reflexivity. Qed.

Example format_big :
  format_6f (SFdiv prec emax (S754_finite true 12345678901234567 3) (float_of_pos 1280))
  = "-77160493132716.046875".
Proof. vm_compute. reflexivity. Qed.

Example repr_list_names :
  repr_list ["bike"; "car"; "person"] = "['bike', 'car', 'person']".
Proof. vm_compute. reflexivity. Qed.

(** ** Properties of the string order *)

Lemma ascii_compare_refl a : Ascii.compare a a = Eq.
Proof. unfold Ascii.compare. apply N.compare_refl. Qed.

Lemma ascii_compare_lt_trans a b c :
  Ascii.compare a b = Lt → Ascii.compare b c = Lt → Ascii.compare a c = Lt.
Proof.
  unfold Ascii.compare. rewrite !N.compare_lt_iff. apply N.lt_trans.
Qed.

Lemma string_compare_refl s : String.compare s s = Eq.
Proof. induction s as [|a s IH]; simpl; [done|]. by rewrite ascii_compare_refl. Qed.

Lemma string_compare_lt_trans s1 s2 s3 :
  String.compare s1 s2 = Lt → String.compare s2 s3 = Lt →
  String.compare s1 s3 = Lt.
Proof.
  revert s2 s3. induction s1 as [|a s1 IH]; intros [|b s2] [|c s3]; simpl;
    try done.
  destruct (Ascii.compare a b) eqn:Hab; try done;
    destruct (Ascii.compare b c) eqn:Hbc; try done; intros H1 H2.
  - apply Ascii.compare_eq_iff in Hab, Hbc. subst.
    rewrite ascii_compare_refl. eauto.
  - apply Ascii.compare_eq_iff in Hab. subst. by rewrite Hbc.
  - apply Ascii.compare_eq_iff in Hbc. subst. by rewrite Hab.
  - by rewrite (ascii_compare_lt_trans a b c).
Qed.

Lemma str_le_lt_or_eq s1 s2 : str_le s1 s2 ↔ str_lt s1 s2 ∨ s1 = s2.
Proof.
  unfold str_le, str_lt, String.leb, String.ltb. split.
  - destruct (String.compare s1 s2) eqn:Hc; try done; [|by left].
    right. by apply String.compare_eq_iff.
  - intros [H| ->]; [by destruct (String.compare s1 s2)|].
    by rewrite string_compare_refl.
Qed.

Lemma str_lt_irrefl s : ¬ str_lt s s.
Proof. unfold str_lt, String.ltb. by rewrite string_compare_refl. Qed.

Lemma str_lt_trans s1 s2 s3 : str_lt s1 s2 → str_lt s2 s3 → str_lt s1 s3.
Proof.
  unfold str_lt, String.ltb. intros H1 H2.
  destruct (String.compare s1 s2) eqn:H12; try done.
  destruct (String.compare s2 s3) eqn:H23; try done.
  by rewrite (string_compare_lt_trans s1 s2 s3).
Qed.

#[global] Instance str_le_trans : Transitive str_le.
Proof.
  intros s1 s2 s3. rewrite !str_le_lt_or_eq.
  intros [H1| ->] [H2| ->]; eauto using str_lt_trans.
Qed.

#[global] Instance str_le_total : Total str_le.
Proof. intros s1 s2. apply String.leb_total. Qed.

Lemma str_lt_asym s1 s2 : str_lt s1 s2 → ¬ str_lt s2 s1.
Proof. intros H1 H2. exact (str_lt_irrefl _ (str_lt_trans _ _ _ H1 H2)). Qed.

(** ** Properties of the category indexer *)

Lemma elem_of_add_label_categories ls categories c :
  c ∈ add_label_categories ls categories ↔
  c ∈ categories ∨ ∃ label, label ∈ ls ∧ category label = Some c.
Proof.
  revert categories. induction ls as [|label ls IH]; intros categories; simpl.
  - split; [by left|]. intros [H|(label & H & _)]; [done|]. by apply elem_of_nil in H.
  - destruct (category label) as [c'|] eqn:Hc; rewrite IH; split.
    + intros [H|(l & Hl & Hcat)].
      * apply elem_of_union in H as [H|H]; [by left|].
        apply elem_of_singleton in H as ->. right. exists label.
        split; [apply elem_of_cons; by left|done].
      * right. exists l. split; [apply elem_of_cons; by right|done].
    + intros [H|(l & Hl & Hcat)]; [left; apply elem_of_union; by left|].
      apply elem_of_cons in Hl as [->|Hl].
      * left. rewrite Hc in Hcat. injection Hcat as ->.
        apply elem_of_union. right. by apply elem_of_singleton.
      * right. eauto.
    + intros [H|(l & Hl & Hcat)]; [by left|].
      right. exists l. split; [apply elem_of_cons; by right|done].
    + intros [H|(l & Hl & Hcat)]; [by left|].
      apply elem_of_cons in Hl as [->|Hl]; [congruence|]. right. eauto.
Qed.

Lemma elem_of_collect_categories json_data categories c :
  c ∈ collect_categories json_data categories ↔
  c ∈ categories ∨
  ∃ item label, item ∈ json_data ∧ label ∈ labels item ∧ category label = Some c.
Proof.
  revert categories. induction json_data as [|item rest IH]; intros categories; simpl.
  - split; [by left|]. intros [H|(i & l & H & _)]; [done|]. by apply elem_of_nil in H.
  - rewrite IH, elem_of_add_label_categories. split.
    + intros [[H|(l & Hl & Hc)]|(i & l & Hi & Hl & Hc)]; [by left|right..].
      * exists item, l. split; [apply elem_of_cons; by left|done].
      * exists i, l. split; [apply elem_of_cons; by right|done].
    + intros [H|(i & l & Hi & Hl & Hc)]; [by left; left|].
      apply elem_of_cons in Hi as [->|Hi]; [left; right; eauto|].
      right. eauto.
Qed.

Lemma sorted_Permutation categories : sorted categories ≡ₚ elements categories.
Proof. apply merge_sort_Permutation. Qed.

Lemma elem_of_sorted categories c : c ∈ sorted categories ↔ c ∈ categories.
Proof. by rewrite sorted_Permutation, elem_of_elements. Qed.

Lemma NoDup_sorted categories : NoDup (sorted categories).
Proof. rewrite sorted_Permutation. apply NoDup_elements. Qed.

Lemma StronglySorted_le_NoDup_lt (l : list string) :
  StronglySorted str_le l → NoDup l → StronglySorted str_lt l.
Proof.
  induction 1 as [|x l Hl IH Hx]; intros Hnd; constructor.
  - apply IH. by apply NoDup_cons in Hnd as [_ ?].
  - apply NoDup_cons in Hnd as [Hnotin _].
    apply Forall_forall. intros y Hy.
    rewrite Forall_forall in Hx. specialize (Hx y Hy).
    apply str_le_lt_or_eq in Hx as [Hx| ->]; done.
Qed.

Lemma sorted_strictly_increasing categories :
  StronglySorted str_lt (sorted categories).
Proof.
  apply StronglySorted_le_NoDup_lt; [|apply NoDup_sorted].
  apply StronglySorted_merge_sort; apply _.
Qed.

Lemma enumerate_from_keys i l : (enumerate_from i l).*1 = l.
Proof. revert i. induction l as [|c l IH]; intros i; simpl; [done|]. by rewrite IH. Qed.

Lemma enumerate_from_ids i l : (enumerate_from i l).*2 = seq i (length l).
Proof. revert i. induction l as [|c l IH]; intros i; simpl; [done|]. by rewrite IH. Qed.

Lemma length_enumerate_from i l : length (enumerate_from i l) = length l.
Proof. revert i. induction l as [|c l IH]; intros i; simpl; [done|]. by rewrite IH. Qed.

Lemma elem_of_enumerate_from i l c j :
  (c, j) ∈ enumerate_from i l → c ∈ l ∧ (i ≤ j)%nat.
Proof.
  revert i. induction l as [|c' l IH]; intros i; simpl.
  - intros H. by apply elem_of_nil in H.
  - intros H. apply elem_of_cons in H as [[= -> ->]|H].
    + split; [apply elem_of_cons; by left|lia].
    + apply IH in H as [? ?]. split; [apply elem_of_cons; by right|lia].
Qed.

Lemma enumerate_from_order i l c1 j1 c2 j2 :
  StronglySorted str_lt l →
  (c1, j1) ∈ enumerate_from i l → (c2, j2) ∈ enumerate_from i l →
  (str_lt c1 c2 ↔ (j1 < j2)%nat).
Proof.
  intros Hs. revert i. induction Hs as [|c l Hl IH Hc]; intros i; simpl.
  - intros H. by apply elem_of_nil in H.
  - rewrite Forall_forall in Hc.
    intros H1 H2.
    apply elem_of_cons in H1 as [[= -> ->]|H1];
      apply elem_of_cons in H2 as [[= -> ->]|H2].
    + split; [intros H; by apply str_lt_irrefl in H|lia].
    + apply elem_of_enumerate_from in H2 as [H2 ?].
      split; [lia|]. intros _. by apply Hc.
    + apply elem_of_enumerate_from in H1 as [H1 ?].
      split; [|lia]. intros Hlt. apply Hc in H1. by apply str_lt_asym in Hlt.
    + by apply (IH (S i)).
Qed.

Example posix_splitext_jpg : posix_splitext "dir.d/a.b.jpg" = ("dir.d/a.b", ".jpg").
Proof. vm_compute. reflexivity. Qed.

Example posix_splitext_hidden : posix_splitext "dir.d/..rc" = ("dir.d/..rc", "").
Proof. vm_compute. reflexivity. Qed.

Example posix_join_rel : posix_join "out/" "a.txt" = "out/a.txt" ∧
                         posix_join "out" "a.txt" = "out/a.txt" ∧
                         posix_join "out" "/a.txt" = "/a.txt".
Proof. vm_compute. done. Qed.

(** C3: [update_category_mapping] maps exactly the category names that
    appear in some label carrying a ['category'] key (whether or not the
    label has a polygon); its ids are 0, 1, ..., n-1 in this order; its
    names are listed in strictly ascending lexicographic order, so a name
    is smaller than another exactly when its id is; and the categories
    "car" and "bike" are mapped to bike:0, car:1. *)
Theorem update_category_mapping_spec :
  ∀ json_data : list AnnotationRecord,
    let m := update_category_mapping json_data in
    (∀ c, c ∈ m.*1 ↔
          ∃ item label, item ∈ json_data ∧ label ∈ labels item ∧
                        category label = Some c)
    ∧ m.*2 = seq 0 (length m)
    ∧ StronglySorted str_lt m.*1
    ∧ NoDup m.*1
    ∧ (∀ c1 i1 c2 i2, (c1, i1) ∈ m → (c2, i2) ∈ m →
                      (str_lt c1 c2 ↔ (i1 < i2)%nat))
    ∧ update_category_mapping
        [ {| name := "a.jpg";
             labels := [ {| category := Some "car"; poly2d := Some [] |};
                         {| category := Some "bike"; poly2d := None |};
                         {| category := None; poly2d := None |} ] |} ]
      = [("bike", 0); ("car", 1)].
Proof.
  intros json_data m. unfold m, update_category_mapping.
  repeat split.
  - rewrite enumerate_from_keys, elem_of_sorted, elem_of_collect_categories.
    intros [Hc|Hc]; [by apply not_elem_of_empty in Hc|done].
  - intros Hc. rewrite enumerate_from_keys, elem_of_sorted,
      elem_of_collect_categories. by right.
  - by rewrite enumerate_from_ids, length_enumerate_from.
  - rewrite enumerate_from_keys. apply sorted_strictly_increasing.
  - rewrite enumerate_from_keys. apply NoDup_sorted.
  - intros Hlt. eapply enumerate_from_order; [|done..|done].
    apply sorted_strictly_increasing.
  - intros Hlt. eapply enumerate_from_order; [|done..|done].
    apply sorted_strictly_increasing.
Qed.

(** ** The effect monad *)

Lemma bind_Ok_inv {A B} (m : Py A) (k : A → Py B) w b w' :
  bind m k w = (Ok b, w') → ∃ a w1, m w = (Ok a, w1) ∧ k a w1 = (Ok b, w').
Proof. unfold bind. destruct (m w) as [[a|e] w1]; [eauto|done]. Qed.

Lemma for_each_app {A S} (body : A → S → Py S) l1 l2 acc w :
  for_each body (l1 ++ l2) acc w
  = bind (for_each body l1 acc) (for_each body l2) w.
Proof.
  revert acc w. induction l1 as [|x l1 IH]; intros acc w; simpl; [done|].
  unfold bind in *. destruct (body x acc w) as [[a|e] w1]; [|done].
  apply IH.
Qed.

Lemma world_eta w : {| fs := fs w; log := log w |} = w.
Proof. by destruct w. Qed.

Lemma string_app_assoc (s1 s2 s3 : string) :
  (s1 +:+ s2) +:+ s3 = s1 +:+ (s2 +:+ s3).
Proof.
  induction s1 as [|a s1 IH]; [done|].
  change (String a ((s1 +:+ s2) +:+ s3) = String a (s1 +:+ (s2 +:+ s3))).
  by rewrite IH.
Qed.

Lemma string_app_nil_r (s : string) : s +:+ "" = s.
Proof.
  induction s as [|a s IH]; [done|].
  change (String a (s +:+ "") = String a s). by rewrite IH.
Qed.

(** ** The loop over the labels of a record *)

Section ConverterFacts.
Context `{PyLib}.

(** What a completed loop body did. *)
Lemma convert_label_Ok out m label counts w counts' w' :
  convert_label out m label counts w = (Ok counts', w') →
  counts' = label_count label counts
  ∧ log w' = log w ++ label_events out m label
  ∧ fs w' = match label_line m label with
            | Some line => <[out := default "" (fs w !! out) +:+ line]> (fs w)
            | None => fs w
            end.
Proof.
  unfold convert_label, label_count, label_events, label_line, raise, ret.
  destruct (poly2d label) as [polys|]; [|intros [= <- <-]; by rewrite app_nil_r].
  destruct (category label) as [c|]; [|done].
  destruct (mapping_get c m) as [id|].
  - destruct polys as [|first rest]; [done|].
    destruct (decide (length (vertices first) < 3)%nat).
    { intros [= <- <-]. by rewrite app_nil_r. }
    unfold bind, lift. destruct (poly_flat (vertices first)) as [flat|e]; [|done].
    unfold write, ret. by intros [= <- <-].
  - unfold bind, print, emit, ret. intros [= <- <-]. simpl.
    by destruct polys.
Qed.

(** What a loop body that completes requires of its label. *)
Lemma convert_label_Ok_requires out m label counts w counts' w' :
  convert_label out m label counts w = (Ok counts', w') →
  ∀ polys, poly2d label = Some polys →
    ∃ c, category label = Some c ∧
         (is_Some (mapping_get c m) → polys ≠ []).
Proof.
  unfold convert_label, raise. intros Hrun polys Hp. rewrite Hp in Hrun.
  destruct (category label) as [c|]; [|done].
  exists c. split; [done|]. intros [id Hid]. rewrite Hid in Hrun.
  by destruct polys.
Qed.

Lemma for_each_convert_label_Ok out m ls counts w counts' w' :
  for_each (convert_label out m) ls counts w = (Ok counts', w') →
  counts' = foldl (λ acc label, label_count label acc) counts ls
  ∧ log w' = log w ++ concat (label_events out m <$> ls)
  ∧ (∀ old, fs w !! out = Some old →
            fs w' = <[out := old +:+ labels_text m ls]> (fs w))
  ∧ Forall (λ label, ∀ polys, poly2d label = Some polys →
              ∃ c, category label = Some c ∧
                   (is_Some (mapping_get c m) → polys ≠ [])) ls.
Proof.
  revert counts w. induction ls as [|label ls IH]; intros counts w; simpl.
  - intros [= <- <-]. rewrite app_nil_r. repeat split; [|done].
    intros old Hold. rewrite string_app_nil_r. by rewrite insert_id.
  - intros Hrun. apply bind_Ok_inv in Hrun as (c1 & w1 & Hlabel & Hrest).
    pose proof (convert_label_Ok_requires _ _ _ _ _ _ _ Hlabel) as Hreq.
    apply convert_label_Ok in Hlabel as (-> & Hlog1 & Hfs1).
    apply IH in Hrest as (-> & Hlog & Hfs & Hall).
    repeat split; [|..|by constructor].
    + by rewrite Hlog, Hlog1, <-app_assoc.
    + intros old Hold.
      destruct (label_line m label) as [line|]; simpl.
      * rewrite (Hfs (old +:+ line)), Hfs1.
        -- rewrite Hold. simpl. by rewrite insert_insert_eq, string_app_assoc.
        -- rewrite Hfs1, Hold. simpl. apply lookup_insert_eq.
      * rewrite (Hfs old), Hfs1; [done|]. by rewrite Hfs1.
Qed.

(** ** The loop over the records *)

Section Item.
Variables (output_dir image_src_dir image_dst_dir : string).
Variable (m : CategoryMapping).

Let out := label_path output_dir.
Let src := src_path image_src_dir.
Let dst := dst_path image_dst_dir.

Lemma convert_item_missing item t w :
  fs w !! src item = None →
  convert_item output_dir image_src_dir image_dst_dir m item t w
  = (Ok (tally_missing item t), w).
Proof.
  intros Hsrc. unfold convert_item, copy2.
  fold (src_path image_src_dir item). fold (src item). by rewrite Hsrc.
Qed.

Lemma convert_item_same_file item t w :
  is_Some (fs w !! src item) → src item = dst item →
  convert_item output_dir image_src_dir image_dst_dir m item t w
  = (Raise (SameFileError (src item)), w).
Proof.
  intros [content Hsrc] Heq. unfold convert_item, copy2.
  fold (src_path image_src_dir item) (dst_path image_dst_dir item).
  fold (src item) (dst item). rewrite Hsrc.
  by destruct (decide (src item = dst item)).
Qed.

Lemma convert_item_found item t w content :
  fs w !! src item = Some content → src item ≠ dst item →
  convert_item output_dir image_src_dir image_dst_dir m item t w
  = bind (for_each (convert_label (out item) m) (labels item)
            (categories_in_json t))
         (λ counts, ret {| categories_in_json := counts;
                           processed_images :=
                             processed_images t ∪ {[ name item ]};
                           missing_images := missing_images t |})
         (opened output_dir image_src_dir image_dst_dir item content w).
Proof.
  intros Hsrc Hne. unfold convert_item, copy2.
  fold (src_path image_src_dir item) (dst_path image_dst_dir item)
    (label_path output_dir item).
  fold (src item) (dst item) (out item). rewrite Hsrc.
  destruct (decide (src item = dst item)); [done|].
  unfold bind at 1. unfold open_w, opened. simpl.
  by rewrite <-app_assoc.
Qed.

(** A record is either missing, and then leaves the world as it is, or
    found, and then copied, opened and written. *)
Lemma convert_item_Ok item t w t' w' :
  convert_item output_dir image_src_dir image_dst_dir m item t w = (Ok t', w') →
  (fs w !! src item = None ∧ t' = tally_missing item t ∧ w' = w)
  ∨ (∃ content,
       fs w !! src item = Some content ∧ src item ≠ dst item
       ∧ t' = tally_found item t
       ∧ log w' = log w ++ EvCopy (src item) (dst item) :: EvOpenW (out item)
                    :: concat (label_events (out item) m <$> labels item)
       ∧ fs w' = <[out item := labels_text m (labels item)]>
                   (<[dst item := content]> (fs w))
       ∧ Forall (λ label, ∀ polys, poly2d label = Some polys →
                    ∃ c, category label = Some c ∧
                         (is_Some (mapping_get c m) → polys ≠ []))
                (labels item)).
Proof.
  intros Hrun. destruct (fs w !! src item) as [content|] eqn:Hsrc.
  - right. exists content.
    destruct (decide (src item = dst item)) as [Heq|Hne].
    { rewrite convert_item_same_file in Hrun; [done|by eexists|done]. }
    rewrite (convert_item_found _ _ _ content) in Hrun by done.
    apply bind_Ok_inv in Hrun as (counts & w1 & Hloop & Hret).
    injection Hret as <- <-.
    apply for_each_convert_label_Ok in Hloop as (-> & Hlog & Hfs & Hall).
    repeat split; [done|..|done].
    + rewrite Hlog. unfold opened. simpl. by rewrite <-app_assoc.
    + rewrite (Hfs ""); unfold opened; simpl.
      * by rewrite insert_insert_eq.
      * apply lookup_insert_eq.
  - left. rewrite convert_item_missing in Hrun by done.
    by injection Hrun as <- <-.
Qed.

Lemma count_app kind evs1 evs2 :
  count kind (evs1 ++ evs2) = count kind evs1 + count kind evs2.
Proof. unfold count. by rewrite filter_app, length_app. Qed.

Lemma count_cons kind ev evs :
  count kind (ev :: evs) = (if kind ev then 1 else 0) + count kind evs.
Proof.
  unfold count. destruct (kind ev) eqn:Hk.
  - by rewrite filter_cons_True.
  - rewrite filter_cons_False; [done|]. by rewrite Hk.
Qed.

Lemma count_label_events1 kind p label :
  (∀ ev, is_write ev = true ∨ is_print ev = true → kind ev = false) →
  count kind (label_events p m label) = 0.
Proof.
  intros Hkind. unfold label_events.
  destruct (poly2d label), (category label) as [c|]; try done.
  destruct (mapping_get c m).
  - destruct (label_line m label); [|done].
    rewrite count_cons, Hkind; [done|by left].
  - rewrite count_cons, Hkind; [done|by right].
Qed.

Lemma count_label_events kind p ls :
  (∀ ev, is_write ev = true ∨ is_print ev = true → kind ev = false) →
  count kind (concat (label_events p m <$> ls)) = 0.
Proof.
  intros Hkind. induction ls as [|label ls IH]; [done|].
  csimpl. by rewrite count_app, IH, count_label_events1.
Qed.

Lemma convert_item_fs_mono item t w t' w' p :
  convert_item output_dir image_src_dir image_dst_dir m item t w = (Ok t', w') →
  is_Some (fs w !! p) → is_Some (fs w' !! p).
Proof.
  intros Hrun Hp.
  apply convert_item_Ok in Hrun
    as [(_ & _ & ->)|(content & _ & _ & _ & _ & -> & _)]; [done|].
  rewrite !lookup_insert. repeat case_decide; try done; by eexists.
Qed.

(** The text files and the images the loop handles. *)
Lemma for_each_convert_item_Ok data t w t' w' :
  for_each (convert_item output_dir image_src_dir image_dst_dir m) data t w
  = (Ok t', w') →
  processed_images t' = processed_images t ∪ list_to_set (name <$> data)
  ∧ (∀ p, is_Some (fs w !! p) → is_Some (fs w' !! p))
  ∧ (∃ evs, log w' = log w ++ evs
            ∧ count is_open evs = count is_copy evs
            ∧ count is_open evs + length (missing_images t')
              = length data + length (missing_images t))
  ∧ Forall (λ item, is_Some (fs w !! src item) →
              Forall (λ label, ∀ polys, poly2d label = Some polys →
                        ∃ c, category label = Some c ∧
                             (is_Some (mapping_get c m) → polys ≠ []))
                     (labels item)) data.
Proof.
  revert t w. induction data as [|item data IH]; intros t w; simpl.
  - intros [= <- <-]. repeat split; [by rewrite (right_id_L ∅ (∪))|done| |done].
    exists []. by rewrite app_nil_r.
  - intros Hrun. apply bind_Ok_inv in Hrun as (t1 & w1 & Hitem & Hrest).
    pose proof (λ p, convert_item_fs_mono _ _ _ _ _ p Hitem) as Hmono.
    apply IH in Hrest as (Hproc & Hmono' & (evs & Hlog & Hcount & Hlen) & Hall).
    apply convert_item_Ok in Hitem
      as [(Hsrc & -> & ->)|(content & Hsrc & Hne & -> & Hlog1 & Hfs1 & Hreq)].
    + repeat split.
      * rewrite Hproc. simpl. by rewrite (assoc_L (∪)).
      * done.
      * exists evs. repeat split; [done..|].
        simpl in Hlen. rewrite length_app in Hlen. simpl in Hlen. lia.
      * constructor; [|done]. intros [? Hs]. congruence.
    + repeat split.
      * rewrite Hproc. simpl. by rewrite (assoc_L (∪)).
      * intros p Hp. by apply Hmono', Hmono.
      * exists (EvCopy (src item) (dst item) :: EvOpenW (out item)
                  :: concat (label_events (out item) m <$> labels item) ++ evs).
        repeat split.
        -- rewrite Hlog, Hlog1, <-app_assoc. done.
        -- rewrite !count_cons, !count_app, !count_label_events; simpl;
             [lia|by intros [] []..].
        -- rewrite !count_cons, !count_app, !count_label_events; simpl;
             [|by intros [] []..].
           simpl in Hlen. lia.
      * constructor; [done|].
        eapply Forall_impl; [exact Hall|]. simpl.
        intros item' Himp Hs. apply Himp, Hmono, Hs.
Qed.

End Item.

(** ** Printing, loading and the converter as a whole *)

Lemma print_run text w :
  print text w = (Ok tt, {| fs := fs w; log := log w ++ [EvPrint text] |}).
Proof. done. Qed.

Lemma for_each_print {A} (body : A → Py unit) (f : A → string) l w :
  (∀ x, body x = print (f x)) →
  for_each_ body l w
  = (Ok tt, {| fs := fs w; log := log w ++ (EvPrint <$> (f <$> l)) |}).
Proof.
  intros Hbody. revert w. induction l as [|x l IH]; intros w; simpl.
  - by rewrite app_nil_r, world_eta.
  - unfold bind. rewrite Hbody, print_run, IH. simpl.
    by rewrite <-app_assoc.
Qed.

Lemma count_prints kind texts :
  (∀ text, kind (EvPrint text) = false) →
  count kind (EvPrint <$> texts) = 0.
Proof.
  intros Hkind. induction texts as [|text texts IH]; [done|].
  csimpl. by rewrite count_cons, Hkind, IH.
Qed.

(** The report never fails and only prints. *)
Lemma print_report_run t w :
  print_report t w
  = (Ok tt, {| fs := fs w; log := log w ++ (EvPrint <$> report_texts t) |}).
Proof.
  unfold print_report, report_texts. unfold bind at 1. rewrite print_run.
  unfold bind at 1.
  rewrite (for_each_print _ (λ '(category, count),
             category +:+ ": " +:+ pretty count +:+ " instances"))
    by (intros [??]; reflexivity).
  cbn [fs log]. rewrite fmap_cons, fmap_app, <-!app_assoc.
  destruct (missing_images t) as [|img rest] eqn:Hmiss.
  - unfold ret. by rewrite fmap_nil, app_nil_r.
  - rewrite <-Hmiss. unfold bind at 1. rewrite print_run. unfold bind at 1.
    rewrite (for_each_print _ (λ img, "  " +:+ img))
      by (intros; reflexivity).
    cbn [fs log]. rewrite fmap_cons, fmap_app, <-!app_assoc.
    destruct (decide (10 < length (missing_images t))).
    + rewrite print_run. cbn [fs log]. by rewrite <-!app_assoc.
    + unfold ret. by rewrite fmap_nil, app_nil_r.
Qed.

Lemma load_json_Ok file_path w data w' :
  load_json file_path w = (Ok data, w') →
  w' = w ∧ ∃ text, fs w !! file_path = Some text ∧ json_loads text = Some data.
Proof.
  unfold load_json. destruct (fs w !! file_path) as [text|]; [|done].
  destruct (json_loads text) as [d|] eqn:Hd; [|done].
  intros [= <- <-]. eauto.
Qed.

(** A run of the converter that returns has loaded the records, run
    the loop over them and printed the report. *)
Lemma bdd100k_to_yolov8_Ok input_json output_dir image_src_dir image_dst_dir
    m w n k counts w' :
  bdd100k_to_yolov8 input_json output_dir image_src_dir image_dst_dir m w
  = (Ok (n, k, counts), w') →
  ∃ data t w2,
    load_json input_json w = (Ok data, w)
    ∧ for_each (convert_item output_dir image_src_dir image_dst_dir m) data
        {| categories_in_json := []; processed_images := ∅;
           missing_images := [] |}
        {| fs := fs w;
           log := log w ++ [EvMakedirs output_dir; EvMakedirs image_dst_dir] |}
      = (Ok t, w2)
    ∧ n = size (processed_images t) ∧ k = length (missing_images t)
    ∧ counts = categories_in_json t
    ∧ fs w' = fs w2 ∧ log w' = log w2 ++ (EvPrint <$> report_texts t).
Proof.
  unfold bdd100k_to_yolov8. intros Hrun.
  apply bind_Ok_inv in Hrun as (data & w1 & Hload & Hrun).
  pose proof (load_json_Ok _ _ _ _ Hload) as [-> _].
  apply bind_Ok_inv in Hrun as ([] & w2 & Hmk1 & Hrun).
  apply bind_Ok_inv in Hrun as ([] & w3 & Hmk2 & Hrun).
  apply bind_Ok_inv in Hrun as (t & w4 & Hloop & Hrun).
  apply bind_Ok_inv in Hrun as ([] & w5 & Hrep & Hret).
  injection Hret as <- <- <- <-.
  injection Hmk1 as <-. injection Hmk2 as <-. simpl in Hloop.
  rewrite <-app_assoc in Hloop. simpl in Hloop.
  rewrite print_report_run in Hrep. injection Hrep as <-.
  by exists data, t, w4.
Qed.

End ConverterFacts.

Example scenario_a_b :
  let '(result, w') :=
    bdd100k_to_yolov8 (H := example_lib) "in.json" "labels" "src" "images"
      car_mapping (example_world "[a, b]") in
  result = Ok (2, 1, [("car", 1)])
  ∧ fs w' !! "images/a.jpg" = Some "JPEG of a"
  ∧ fs w' !! "labels/a.txt"
    = Some ("0 0.000000 0.000000 0.500000 0.000000 0.500000 0.500000 0.250000 1.000000"
              +:+ NL)
  ∧ fs w' !! "labels/b.txt" = None
  ∧ fs w' !! "images/b.jpg" = None.
Proof. vm_compute. done. Qed.

(** ** Counters *)

Lemma counter_get_incr_eq key c :
  counter_get key (counter_incr key c) = S (counter_get key c).
Proof.
  induction c as [|[k n] c IH]; simpl.
  - by rewrite decide_True.
  - destruct (decide (k = key)); simpl.
    + by rewrite decide_True.
    + by rewrite decide_False.
Qed.

Lemma counter_get_incr_ne key key' c :
  key' ≠ key → counter_get key' (counter_incr key c) = counter_get key' c.
Proof.
  intros Hne. induction c as [|[k n] c IH]; simpl.
  - by rewrite decide_False.
  - destruct (decide (k = key)) as [->|]; simpl.
    + by rewrite !decide_False.
    + destruct (decide (k = key')); [done|apply IH].
Qed.

Section Claims.
Context `{PyLib}.

(** A loop body that raises has had no effect. *)
Lemma convert_label_Raise out m label counts w e w' :
  convert_label out m label counts w = (Raise e, w') → w' = w.
Proof.
  unfold convert_label, raise, ret.
  destruct (poly2d label) as [polys|]; [|done].
  destruct (category label) as [c|]; [|by intros [= _ <-]].
  destruct (mapping_get c m) as [id|]; [|done].
  destruct polys as [|first rest]; [by intros [= _ <-]|].
  destruct (decide (length (vertices first) < 3)); [done|].
  unfold bind, lift. destruct (poly_flat (vertices first)); [done|].
  by intros [= _ <-].
Qed.

(** Whatever the outcome of the loop over the labels, it has completed
    the body on a prefix of them and done nothing else. *)
Lemma for_each_convert_label_prefix out m ls counts w o w' :
  for_each (convert_label out m) ls counts w = (o, w') →
  ∃ k, log w' = log w ++ concat (label_events out m <$> take k ls)
       ∧ ∀ old, fs w !! out = Some old →
                fs w' = <[out := old +:+ labels_text m (take k ls)]> (fs w).
Proof.
  revert counts w. induction ls as [|label ls IH]; intros counts w; simpl.
  - intros [= <- <-]. exists 0. simpl. rewrite app_nil_r. split; [done|].
    intros old Hold. by rewrite string_app_nil_r, insert_id.
  - unfold bind.
    destruct (convert_label out m label counts w) as [[c1|e] w1] eqn:Hlabel.
    + intros Hrest. apply IH in Hrest as (k & Hlog & Hfs).
      apply convert_label_Ok in Hlabel as (_ & Hlog1 & Hfs1).
      exists (S k). csimpl. split.
      * by rewrite Hlog, Hlog1, <-app_assoc.
      * intros old Hold.
        destruct (label_line m label) as [line|]; simpl.
        -- rewrite (Hfs (old +:+ line)), Hfs1.
           ++ rewrite Hold. simpl.
              by rewrite insert_insert_eq, string_app_assoc.
           ++ rewrite Hfs1, Hold. simpl. apply lookup_insert_eq.
        -- rewrite (Hfs old), Hfs1; [done|]. by rewrite Hfs1.
    + intros [= <- <-]. apply convert_label_Raise in Hlabel as ->.
      exists 0. simpl. rewrite app_nil_r. split; [done|].
      intros old Hold. by rewrite string_app_nil_r, insert_id.
Qed.


(** C1 (as amended): a label with a polygon list whose category is not
    in the mapping makes the converter print the warning and write no
    line, but its category has been counted before the lookup: the
    counter of that category grows by one and the others stay; the
    loop then goes on with the remaining labels of the record. *)
Theorem unmapped_category_warned_and_counted :
  ∀ out m label polys c rest counts w,
    poly2d label = Some polys →
    category label = Some c →
    mapping_get c m = None →
    let w1 := {| fs := fs w;
                 log := log w ++ [EvPrint (warning_unmapped c)] |} in
    convert_label out m label counts w = (Ok (counter_incr c counts), w1)
    ∧ label_line m label = None
    ∧ counter_get c (counter_incr c counts) = S (counter_get c counts)
    ∧ (∀ c', c' ≠ c →
             counter_get c' (counter_incr c counts) = counter_get c' counts)
    ∧ for_each (convert_label out m) (label :: rest) counts w
      = for_each (convert_label out m) rest (counter_incr c counts) w1.
Proof.
  intros out m label polys c rest counts w Hp Hc Hm w1.
  assert (convert_label out m label counts w = (Ok (counter_incr c counts), w1))
    as Hrun.
  { unfold convert_label. by rewrite Hp, Hc, Hm. }
  repeat split.
  - done.
  - unfold label_line. rewrite Hp, Hc, Hm. by destruct polys.
  - apply counter_get_incr_eq.
  - intros c' Hne. by apply counter_get_incr_ne.
  - simpl. unfold bind. by rewrite Hrun.
Qed.


(** C7 (as amended): a run of the converter that returns has opened a
    text file for writing and copied an image once for every record
    whose image was found, and for no other: the number of records less
    the number of missing images, of each. *)
Theorem files_written_and_copied :
  ∀ input_json output_dir image_src_dir image_dst_dir m w n k counts w',
    bdd100k_to_yolov8 input_json output_dir image_src_dir image_dst_dir m w
    = (Ok (n, k, counts), w') →
    ∃ data evs,
      load_json input_json w = (Ok data, w)
      ∧ log w' = log w ++ evs
      ∧ k ≤ length data
      ∧ count is_open evs = length data - k
      ∧ count is_copy evs = length data - k.
Proof.
  intros input_json output_dir image_src_dir image_dst_dir m w n k counts w' Hrun.
  apply bdd100k_to_yolov8_Ok in Hrun
    as (data & t & w2 & Hload & Hloop & _ & -> & _ & _ & Hlog).
  apply for_each_convert_item_Ok in Hloop
    as (_ & _ & (evs & Hlog2 & Hcount & Hlen) & _).
  simpl in Hlog2, Hlen.
  exists data, ([EvMakedirs output_dir; EvMakedirs image_dst_dir] ++ evs
                  ++ (EvPrint <$> report_texts t)).
  split; [done|]. split.
  { rewrite Hlog, Hlog2, <-!app_assoc. done. }
  rewrite !count_app, !count_cons, !count_prints by done. simpl.
  rewrite <-Hcount. lia.
Qed.

(** C8: a label that has a polygon list but no category makes the
    converter raise [KeyError] once the image of its record is copied,
    although the indexer accepts the same input; and a run that returns
    has met no such label: every label with a polygon list, in every
    record whose image is there, carries a category. *)
Theorem poly2d_label_needs_category :
  (bdd100k_to_yolov8 (H := example_lib) "in.json" "labels" "src" "images"
     car_mapping (example_world "[uncategorised]")).1
  = Raise (KeyError "category")
  ∧ update_category_mapping
      [ {| name := "a.jpg"; labels := [uncategorised_label] |} ] = []
  ∧ ∀ input_json output_dir image_src_dir image_dst_dir m w result w',
      bdd100k_to_yolov8 input_json output_dir image_src_dir image_dst_dir m w
      = (Ok result, w') →
      ∃ data,
        load_json input_json w = (Ok data, w)
        ∧ ∀ item label,
            item ∈ data →
            is_Some (fs w !! src_path image_src_dir item) →
            label ∈ labels item →
            is_Some (poly2d label) → is_Some (category label).
Proof.
  split; [by vm_compute|]. split; [by vm_compute|].
  intros input_json output_dir image_src_dir image_dst_dir m w [[n k] counts] w' Hrun.
  apply bdd100k_to_yolov8_Ok in Hrun as (data & t & w2 & Hload & Hloop & _).
  exists data. split; [done|].
  apply for_each_convert_item_Ok in Hloop as (_ & _ & _ & Hall).
  intros item label Hitem Hsrc Hlabel [polys Hp].
  rewrite Forall_forall in Hall. specialize (Hall item Hitem Hsrc).
  rewrite Forall_forall in Hall.
  destruct (Hall label Hlabel polys Hp) as (c & Hc & _). by eexists.
Qed.

End Claims.

(** The warning is printed and no line is written, yet the statistics of
    the skipped label's category go from 0 to 1. *)
Lemma unmapped_category_counted_example :
  convert_label "labels/a.txt" [] car_label []
    (example_world "[a, b]")
  = (Ok [("car", 1)],
     {| fs := fs (example_world "[a, b]");
        log := [EvPrint "Warning: Category 'car' found in JSON but not in category_mapping"] |})
  ∧ counter_get "car" [] = 0
  ∧ counter_get "car" [("car", 1)] = 1.
Proof. vm_compute. done. Qed.

Lemma unmapped_category_warned_and_counted_witness :
  convert_label "labels/a.txt" [] car_label []
    (example_world "[a, b]")
  = (Ok (counter_incr "car" []),
     {| fs := fs (example_world "[a, b]");
        log := log (example_world "[a, b]")
               ++ [EvPrint (warning_unmapped "car")] |}).
Proof.
  apply (unmapped_category_warned_and_counted
           "labels/a.txt" [] car_label [square] "car" [] []
           (example_world "[a, b]")); reflexivity.
Defined.

(** C2: a record whose image is missing is entered in the missing list,
    gets no text file and changes no category counter, but its name is
    in the set of processed images: the converter returns 1 processed
    image for the single record of an image that is not there. *)
Theorem missing_image_counted_as_processed :
  let w := example_world "[b]" in
  let '(result, w') :=
    bdd100k_to_yolov8 (H := example_lib) "in.json" "labels" "src" "images"
      car_mapping w in
  result = Ok (1, 1, [])
  ∧ fs w' = fs w
  ∧ count is_open (log w') = 0
  ∧ count is_copy (log w') = 0.
Proof. by vm_compute. Qed.

(** The single record of a missing image: the converter returns N = 1
    and 1 missing image, and writes no text file at all. *)
Lemma no_text_file_for_missing_image :
  let '(result, w') :=
    bdd100k_to_yolov8 (H := example_lib) "in.json" "labels" "src" "images"
      car_mapping (example_world "[b]") in
  result = Ok (1, 1, [])
  ∧ count is_open (log w') = 0
  ∧ fs w' !! "labels/b.txt" = None.
Proof. by vm_compute. Qed.

Lemma files_written_and_copied_witness :
  ∃ data evs,
    load_json (H := example_lib) "in.json" (example_world "[a, b]")
    = (Ok data, example_world "[a, b]")
    ∧ log (bdd100k_to_yolov8 (H := example_lib) "in.json" "labels" "src"
             "images" car_mapping (example_world "[a, b]")).2
      = log (example_world "[a, b]") ++ evs
    ∧ 1 ≤ length data
    ∧ count is_open evs = length data - 1
    ∧ count is_copy evs = length data - 1.
Proof.
  apply (files_written_and_copied (H := example_lib) "in.json" "labels" "src"
           "images" car_mapping (example_world "[a, b]") 2 1 [("car", 1)]).
  vm_compute. reflexivity.
Defined.

Example main_runs :
  let '(result, w') := main (H := example_lib) main_world in
  result = Ok tt
  ∧ fs w' !! "D:\DataSet\BDD100K\BDD100k_YOLO/data.yaml"
    = Some (NL +:+ "train: D:\DataSet\BDD100K\BDD100k_YOLO/images/train"
              +:+ NL +:+ "val: D:\DataSet\BDD100K\BDD100k_YOLO/images/val"
              +:+ NL +:+ NL +:+ "nc: 2"
              +:+ NL +:+ "names: ['bike', 'car']" +:+ NL)
  ∧ fs w' !! "D:\DataSet\BDD100K\BDD100k_YOLO/labels/train/a.txt"
    = Some ("0 0.000000 0.000000 0.500000 0.000000 0.500000 0.500000 0.250000 1.000000"
              +:+ NL).
Proof. vm_compute. done. Qed.

(** ** The driver *)

Lemma mapping_get_is_Some c (m : CategoryMapping) :
  c ∈ m.*1 → is_Some (mapping_get c m).
Proof.
  induction m as [|[c' i] m IH]; simpl.
  - intros Hc. by apply elem_of_nil in Hc.
  - intros Hc. destruct (decide (c' = c)); [by eexists|].
    apply elem_of_cons in Hc as [Hc|Hc]; [congruence|by apply IH].
Qed.

Lemma category_is_mapped json_data item label c :
  item ∈ json_data → label ∈ labels item → category label = Some c →
  is_Some (mapping_get c (update_category_mapping json_data)).
Proof.
  intros Hitem Hlabel Hc. apply mapping_get_is_Some.
  unfold update_category_mapping.
  rewrite enumerate_from_keys, elem_of_sorted, elem_of_collect_categories.
  right. eauto.
Qed.

Section DriverFacts.
Context `{PyLib}.

Lemma print_split_summary_run title r w :
  ∃ evs, print_split_summary title r w
         = (Ok tt, {| fs := fs w; log := log w ++ evs |}).
Proof.
  unfold print_split_summary, bind. rewrite !print_run. cbn [fs log].
  eexists [_; _; _; _]. by rewrite <-!app_assoc.
Qed.

(** A run of [process_dataset] that returns has indexed the records of
    the split and converted them with that mapping. *)
Lemma process_dataset_Ok base output_base split image_src_dir w r w' :
  process_dataset base output_base split image_src_dir w = (Ok r, w') →
  ∃ data w1 w2,
    load_json (split_json base split) w = (Ok data, w)
    ∧ fs w1 = fs w
    ∧ bdd100k_to_yolov8 (split_json base split)
        (split_labels_dir output_base split) image_src_dir
        (split_images_dir output_base split)
        (update_category_mapping data) w1
      = (Ok (processed_count r, missing_count r, category_instances r), w2)
    ∧ split_category_mapping r = update_category_mapping data
    ∧ fs w' = fs w2.
Proof.
  unfold process_dataset. intros Hrun.
  apply bind_Ok_inv in Hrun as (data & w0 & Hload & Hrun).
  pose proof (load_json_Ok _ _ _ _ Hload) as [-> _].
  apply bind_Ok_inv in Hrun as ([] & w1 & Hp1 & Hrun).
  rewrite print_run in Hp1. injection Hp1 as <-.
  apply bind_Ok_inv in Hrun as ([] & w2 & Hp2 & Hrun).
  rewrite (for_each_print _ (λ '(category, idx),
             "  " +:+ category +:+ ": " +:+ pretty idx)) in Hp2
    by (intros [??]; reflexivity).
  injection Hp2 as <-.
  apply bind_Ok_inv in Hrun as ([] & w3 & Hp3 & Hrun).
  rewrite print_run in Hp3. injection Hp3 as <-.
  apply bind_Ok_inv in Hrun as ([] & w4 & Hp4 & Hrun).
  rewrite print_run in Hp4. injection Hp4 as <-.
  apply bind_Ok_inv in Hrun as ([[n k] counts] & w5 & Hconv & Hrun).
  apply bind_Ok_inv in Hrun as ([] & w6 & Hp6 & Hrun).
  rewrite print_run in Hp6. injection Hp6 as <-.
  apply bind_Ok_inv in Hrun as ([] & w7 & Hp7 & Hrun).
  rewrite print_run in Hp7. injection Hp7 as <-.
  apply bind_Ok_inv in Hrun as ([] & w8 & Hp8 & Hrun).
  rewrite print_run in Hp8. injection Hp8 as <-.
  apply bind_Ok_inv in Hrun as ([] & w9 & Hp9 & Hrun).
  rewrite print_run in Hp9. injection Hp9 as <-.
  apply bind_Ok_inv in Hrun as ([] & w10 & Hp10 & Hrun).
  rewrite print_run in Hp10. injection Hp10 as <-.
  apply bind_Ok_inv in Hrun as ([] & w11 & Hp11 & Hrun).
  rewrite (for_each_print _ (λ category,
             "  " +:+ category +:+ ": "
               +:+ pretty (counter_get category counts) +:+ " instances"))
    in Hp11 by (intros; reflexivity).
  injection Hp11 as <-.
  injection Hrun as <- <-.
  eexists data, _, w5. split; [done|]. split; [|split; [exact Hconv|done]].
  done.
Qed.

(** A run of the entry point that returns has processed both splits
    and then written the manifest from the train result. *)
Lemma main_Ok w w' :
  main w = (Ok tt, w') →
  ∃ train_results w1 val_results w2,
    process_dataset base_dir output_base_dir "train" train_images_src_dir w
    = (Ok train_results, w1)
    ∧ process_dataset base_dir output_base_dir "val" val_images_src_dir w1
      = (Ok val_results, w2)
    ∧ fs w' = <[path_join output_base_dir "data.yaml"
                := data_yaml_content (split_category_mapping train_results)]>
                (fs w2).
Proof.
  unfold main. intros Hrun.
  apply bind_Ok_inv in Hrun as (tr & w1 & Htrain & Hrun).
  apply bind_Ok_inv in Hrun as (vr & w2 & Hval & Hrun).
  exists tr, w1, vr, w2. split; [done|]. split; [done|].
  apply bind_Ok_inv in Hrun as ([] & w3 & Hp & Hrun).
  rewrite print_run in Hp. injection Hp as <-.
  apply bind_Ok_inv in Hrun as ([] & w4 & Hp & Hrun).
  destruct (print_split_summary_run "Train dataset:" tr
              {| fs := fs w2; log := log w2 ++ [EvPrint (NL +:+ "Summary:")] |})
    as [evs1 Hevs1].
  rewrite Hevs1 in Hp. injection Hp as <-.
  apply bind_Ok_inv in Hrun as ([] & w5 & Hp & Hrun).
  match type of Hp with print_split_summary ?t ?r ?w = _ =>
    destruct (print_split_summary_run t r w) as [evs2 Hevs2] end.
  rewrite Hevs2 in Hp. injection Hp as <-.
  apply bind_Ok_inv in Hrun as ([] & w6 & Hp & Hrun).
  rewrite print_run in Hp. injection Hp as <-.
  apply bind_Ok_inv in Hrun as ([] & w7 & Hp & Hrun).
  rewrite (for_each_print _ (λ category,
     "  " +:+ category +:+ ": "
       +:+ pretty (counter_get category (category_instances tr)
                   + counter_get category (category_instances vr))
       +:+ " instances (Train: "
       +:+ pretty (counter_get category (category_instances tr))
       +:+ ", Val: "
       +:+ pretty (counter_get category (category_instances vr)) +:+ ")"))
    in Hp by (intros; reflexivity).
  injection Hp as <-.
  apply bind_Ok_inv in Hrun as ([] & w8 & Hp & Hrun).
  injection Hp as <-.
  apply bind_Ok_inv in Hrun as ([] & w9 & Hp & Hrun).
  injection Hp as <-.
  rewrite print_run in Hrun. injection Hrun as <-.
  cbn [fs]. rewrite lookup_insert_eq. cbn [default].
  by rewrite insert_insert_eq.
Qed.

End DriverFacts.

Section DriverClaims.
Context `{PyLib}.

(** C5: when the entry point returns, [data.yaml] holds the manifest of
    the mapping indexed from the train label file alone, whatever the
    validation split contains: it ends with [nc:] and the number of
    categories of that mapping, then [names:] and the list of its
    names in the order of the mapping, which is ascending
    lexicographic order.  For the mapping bike:0, car:1, person:2 this
    gives [nc: 3] and [names: ['bike', 'car', 'person']]. *)
Theorem manifest_from_train_mapping :
  ∀ w w',
    main w = (Ok tt, w') →
    ∃ train_data,
      load_json (split_json base_dir "train") w = (Ok train_data, w)
      ∧ let mapping := update_category_mapping train_data in
        fs w' !! path_join output_base_dir "data.yaml"
        = Some (data_yaml_content mapping)
        ∧ (∃ head, data_yaml_content mapping
                   = head +:+ "nc: " +:+ pretty (length mapping) +:+ NL
                       +:+ "names: " +:+ repr_list mapping.*1 +:+ NL)
        ∧ StronglySorted str_lt mapping.*1
        ∧ mapping.*2 = seq 0 (length mapping)
        ∧ data_yaml_content (H := example_lib)
            [("bike", 0); ("car", 1); ("person", 2)]
          = NL +:+ "train: D:\DataSet\BDD100K\BDD100k_YOLO/images/train"
              +:+ NL +:+ "val: D:\DataSet\BDD100K\BDD100k_YOLO/images/val"
              +:+ NL +:+ NL +:+ "nc: 3"
              +:+ NL +:+ "names: ['bike', 'car', 'person']" +:+ NL.
Proof.
  intros w w' Hrun.
  apply main_Ok in Hrun as (tr & w1 & vr & w2 & Htrain & _ & Hfs).
  apply process_dataset_Ok in Htrain as (data & _ & _ & Hload & _ & _ & Hmap & _).
  exists data. split; [done|]. simpl.
  assert (StronglySorted str_lt (update_category_mapping data).*1) as Hsorted.
  { unfold update_category_mapping. rewrite enumerate_from_keys.
    apply sorted_strictly_increasing. }
  assert ((update_category_mapping data).*2
          = seq 0 (length (update_category_mapping data))) as Hids.
  { unfold update_category_mapping.
    by rewrite enumerate_from_ids, length_enumerate_from. }
  split_and!; [|..|done|done|by vm_compute].
  - by rewrite Hfs, lookup_insert_eq, Hmap.
  - unfold data_yaml_content. eexists.
    rewrite <-!string_app_assoc. reflexivity.
Qed.

(** C9: a label whose polygon list is empty makes the converter raise
    [IndexError] once the image of its record is copied and its
    category is found in the mapping; so a run of the converter that
    returns has met, in the records whose image is there, no empty
    polygon list under a mapped category, and a run of
    [process_dataset], whose mapping holds every category of the file,
    has met no empty polygon list at all. *)
Theorem poly2d_must_not_be_empty :
  (bdd100k_to_yolov8 (H := example_lib) "in.json" "labels" "src" "images"
     car_mapping (example_world "[empty poly2d]")).1
  = Raise IndexError
  ∧ (∀ input_json output_dir image_src_dir image_dst_dir m w result w',
      bdd100k_to_yolov8 input_json output_dir image_src_dir image_dst_dir m w
      = (Ok result, w') →
      ∃ data,
        load_json input_json w = (Ok data, w)
        ∧ ∀ item label polys c,
            item ∈ data →
            is_Some (fs w !! src_path image_src_dir item) →
            label ∈ labels item →
            poly2d label = Some polys →
            category label = Some c → is_Some (mapping_get c m) →
            polys ≠ [])
  ∧ (∀ base output_base split image_src_dir w r w',
      process_dataset base output_base split image_src_dir w = (Ok r, w') →
      ∃ data,
        load_json (split_json base split) w = (Ok data, w)
        ∧ ∀ item label polys,
            item ∈ data →
            is_Some (fs w !! src_path image_src_dir item) →
            label ∈ labels item →
            poly2d label = Some polys →
            polys ≠ []).
Proof.
  split; [by vm_compute|].
  assert (∀ input_json output_dir image_src_dir image_dst_dir m w result w',
      bdd100k_to_yolov8 input_json output_dir image_src_dir image_dst_dir m w
      = (Ok result, w') →
      ∃ data,
        load_json input_json w = (Ok data, w)
        ∧ ∀ item label polys,
            item ∈ data →
            is_Some (fs w !! src_path image_src_dir item) →
            label ∈ labels item →
            poly2d label = Some polys →
            ∃ c, category label = Some c
                 ∧ (is_Some (mapping_get c m) → polys ≠ [])) as Hconv.
  { intros input_json output_dir image_src_dir image_dst_dir m w
      [[n k] counts] w' Hrun.
    apply bdd100k_to_yolov8_Ok in Hrun as (data & t & w2 & Hload & Hloop & _).
    exists data. split; [done|].
    apply for_each_convert_item_Ok in Hloop as (_ & _ & _ & Hall).
    intros item label polys Hitem Hsrc Hlabel Hp.
    rewrite Forall_forall in Hall. specialize (Hall item Hitem Hsrc).
    rewrite Forall_forall in Hall. by apply Hall. }
  split.
  - intros input_json output_dir image_src_dir image_dst_dir m w result w' Hrun.
    apply Hconv in Hrun as (data & Hload & Hall).
    exists data. split; [done|].
    intros item label polys c Hitem Hsrc Hlabel Hp Hc Hm.
    destruct (Hall item label polys Hitem Hsrc Hlabel Hp) as (c' & Hc' & Hne).
    apply Hne. congruence.
  - intros base output_base split image_src_dir w r w' Hrun.
    apply process_dataset_Ok in Hrun
      as (data & w1 & w2 & Hload & Hfs & Hrun & _).
    exists data. split; [done|].
    apply Hconv in Hrun as (data' & Hload' & Hall).
    assert (data' = data) as ->.
    { apply load_json_Ok in Hload as (_ & text & Htext & Hparse).
      apply load_json_Ok in Hload' as (_ & text' & Htext' & Hparse').
      rewrite Hfs in Htext'. congruence. }
    intros item label polys Hitem Hsrc Hlabel Hp.
    rewrite <-Hfs in Hsrc.
    destruct (Hall item label polys Hitem Hsrc Hlabel Hp) as (c & Hc & Hne).
    apply Hne. by eapply category_is_mapped.
Qed.

End DriverClaims.

Lemma manifest_from_train_mapping_witness :
  ∃ train_data,
    load_json (H := example_lib) (split_json (H := example_lib) base_dir "train")
      main_world = (Ok train_data, main_world)
    ∧ fs (main (H := example_lib) main_world).2
        !! path_join (PyLib := example_lib) output_base_dir "data.yaml"
      = Some (data_yaml_content (H := example_lib)
                (update_category_mapping train_data)).
Proof.
  destruct (manifest_from_train_mapping (H := example_lib) main_world
              (main (H := example_lib) main_world).2)
    as (train_data & Hload & Hfs & _).
  - vm_compute. reflexivity.
  - exists train_data. split; [exact Hload|exact Hfs].
Defined.

(** ** Records that share a filename *)

Lemma size_list_to_set_le (l : list string) :
  size (list_to_set l : gset string) ≤ length l.
Proof.
  induction l as [|x l IH].
  - by rewrite list_to_set_nil, size_empty.
  - rewrite list_to_set_cons, size_union_alt, size_singleton. simpl.
    assert (size (list_to_set l ∖ {[x]} : gset string)
            ≤ size (list_to_set l : gset string)).
    { apply subseteq_size. apply subseteq_difference_l. done. }
    lia.
Qed.

Lemma size_list_to_set_repeated (p q s : list string) x :
  size (list_to_set (p ++ x :: q ++ x :: s) : gset string)
  < length (p ++ x :: q ++ x :: s).
Proof.
  assert ((list_to_set (p ++ x :: q ++ x :: s) : gset string)
          = list_to_set (p ++ x :: q ++ s)) as ->.
  { apply set_eq. intros y.
    rewrite !elem_of_list_to_set, !elem_of_app, !elem_of_cons, !elem_of_app,
      !elem_of_cons.
    tauto. }
  pose proof (size_list_to_set_le (p ++ x :: q ++ s)) as Hle.
  rewrite !length_app in *. simpl in *. rewrite !length_app in *. simpl. lia.
Qed.

Section SharedFilename.
Context `{PyLib}.
Variables (output_dir image_src_dir image_dst_dir : string).
Variable (m : CategoryMapping).

Lemma same_name_same_paths r1 r2 :
  name r1 = name r2 →
  src_path image_src_dir r1 = src_path image_src_dir r2
  ∧ dst_path image_dst_dir r1 = dst_path image_dst_dir r2
  ∧ label_path output_dir r1 = label_path output_dir r2.
Proof. unfold src_path, dst_path, label_path. by intros ->. Qed.

(** A record leaves alone every file that is neither its text file nor
    the copy of its image. *)
Lemma convert_item_frame item t w t' w' p :
  convert_item output_dir image_src_dir image_dst_dir m item t w = (Ok t', w') →
  label_path output_dir item ≠ p → dst_path image_dst_dir item ≠ p →
  fs w' !! p = fs w !! p.
Proof.
  intros Hrun Hout Hdst.
  apply convert_item_Ok in Hrun
    as [(_ & _ & ->)|(content & _ & _ & _ & _ & -> & _)]; [done|].
  by rewrite !lookup_insert_ne.
Qed.

Lemma for_each_convert_item_frame data t w t' w' p :
  for_each (convert_item output_dir image_src_dir image_dst_dir m) data t w
  = (Ok t', w') →
  Forall (λ r, label_path output_dir r ≠ p ∧ dst_path image_dst_dir r ≠ p) data →
  fs w' !! p = fs w !! p.
Proof.
  revert t w. induction data as [|item data IH]; intros t w; simpl.
  - by intros [= <- <-].
  - intros Hrun Hall. apply Forall_cons in Hall as [[Hout Hdst] Hall].
    apply bind_Ok_inv in Hrun as (t1 & w1 & Hitem & Hrest).
    rewrite (IH _ _ Hrest Hall). by eapply convert_item_frame.
Qed.

(** After a record whose image is found, its text file holds the lines
    of its own labels and nothing else. *)
Lemma convert_item_text item t w t' w' :
  convert_item output_dir image_src_dir image_dst_dir m item t w = (Ok t', w') →
  is_Some (fs w !! src_path image_src_dir item) →
  fs w' !! label_path output_dir item = Some (labels_text m (labels item))
  ∧ ∃ content, fs w !! src_path image_src_dir item = Some content
      ∧ log w' = log w
          ++ EvCopy (src_path image_src_dir item) (dst_path image_dst_dir item)
          :: EvOpenW (label_path output_dir item)
          :: concat (label_events (label_path output_dir item) m <$> labels item)
      ∧ (dst_path image_dst_dir item ≠ label_path output_dir item →
         fs w' !! dst_path image_dst_dir item = Some content).
Proof.
  intros Hrun [content Hsrc].
  apply convert_item_Ok in Hrun
    as [(Hnone & _)|(content' & Hsrc' & _ & _ & Hlog & -> & _)]; [congruence|].
  split; [apply lookup_insert_eq|].
  exists content'. split; [done|]. split; [done|].
  intros Hne. by rewrite lookup_insert_ne, lookup_insert_eq.
Qed.

(** C10: when two records have the same filename and its image is there,
    the converter copies the image and opens the text file once for the
    earlier record and once again, later, for the later one, each time
    to the same paths; what the later record leaves replaces what the
    earlier one left: unless a record after it uses the same paths, the
    text file holds at the end exactly the lines of the later record's
    labels; and the returned number of processed images is the number of
    distinct filenames, less than the number of records. *)
Theorem shared_filename_overwrites :
  ∀ input_json w n k counts w' pre r1 mid r2 post,
    let data := pre ++ r1 :: mid ++ r2 :: post in
    let src := src_path image_src_dir r2 in
    let dst := dst_path image_dst_dir r2 in
    let out := label_path output_dir r2 in
    load_json input_json w = (Ok data, w) →
    name r1 = name r2 →
    is_Some (fs w !! src) →
    bdd100k_to_yolov8 input_json output_dir image_src_dir image_dst_dir m w
    = (Ok (n, k, counts), w') →
    n = size (list_to_set (name <$> data) : gset string)
    ∧ n < length data
    ∧ (∃ evs0 evs1 evs2,
         log w' = log w ++ evs0
                    ++ (EvCopy src dst :: EvOpenW out
                          :: concat (label_events out m <$> labels r1))
                    ++ evs1
                    ++ (EvCopy src dst :: EvOpenW out
                          :: concat (label_events out m <$> labels r2))
                    ++ evs2)
    ∧ (Forall (λ r, label_path output_dir r ≠ out
                    ∧ dst_path image_dst_dir r ≠ out) post →
       fs w' !! out = Some (labels_text m (labels r2))).
Proof.
  intros input_json w n k counts w' pre r1 mid r2 post data src dst out
    Hload Hname Hsrc Hrun.
  destruct (same_name_same_paths r1 r2 Hname) as (Hs & Hd & Ho).
  apply bdd100k_to_yolov8_Ok in Hrun
    as (data' & t & w5 & Hload' & Hloop & -> & _ & _ & Hfs & Hlog).
  assert (data' = data) as -> by congruence.
  split.
  { apply for_each_convert_item_Ok in Hloop as (-> & _). simpl.
    by rewrite (left_id_L ∅ (∪)). }
  split.
  { apply for_each_convert_item_Ok in Hloop as (-> & _). simpl.
    rewrite (left_id_L ∅ (∪)). unfold data.
    rewrite fmap_app, fmap_cons, fmap_app, fmap_cons, Hname.
    rewrite <-(length_fmap name (pre ++ r1 :: mid ++ r2 :: post)).
    rewrite fmap_app, fmap_cons, fmap_app, fmap_cons, Hname.
    apply size_list_to_set_repeated. }
  unfold data in Hloop.
  rewrite for_each_app in Hloop.
  apply bind_Ok_inv in Hloop as (t1 & w1 & Hpre & Hloop).
  simpl in Hloop.
  apply bind_Ok_inv in Hloop as (t2 & w2 & Hr1 & Hloop).
  rewrite for_each_app in Hloop.
  apply bind_Ok_inv in Hloop as (t3 & w3 & Hmid & Hloop).
  simpl in Hloop.
  apply bind_Ok_inv in Hloop as (t4 & w4 & Hr2 & Hpost).
  pose proof (for_each_convert_item_Ok _ _ _ _ _ _ _ _ _ Hpre)
    as (_ & Hmono1 & (evs0 & Hlog1 & _) & _).
  pose proof (λ p, convert_item_fs_mono _ _ _ _ _ _ _ _ _ p Hr1) as Hmono2.
  pose proof (for_each_convert_item_Ok _ _ _ _ _ _ _ _ _ Hmid)
    as (_ & Hmono3 & (evs1 & Hlog3 & _) & _).
  pose proof (for_each_convert_item_Ok _ _ _ _ _ _ _ _ _ Hpost)
    as (_ & _ & (evs2 & Hlog5 & _) & _).
  simpl in Hmono1, Hlog1.
  apply convert_item_text in Hr1 as (_ & c1 & _ & Hlog2 & _);
    [|rewrite Hs; by apply Hmono1].
  pose proof Hr2 as Hr2'.
  apply convert_item_text in Hr2' as (Htext & c2 & _ & Hlog4 & _);
    [|by apply Hmono3, Hmono2, Hmono1].
  split.
  - exists ([EvMakedirs output_dir; EvMakedirs image_dst_dir] ++ evs0), evs1,
      (evs2 ++ (EvPrint <$> report_texts t)).
    rewrite Hlog, Hlog5, Hlog4, Hlog3, Hlog2, Hlog1, Hs, Hd, Ho.
    fold src dst out. rewrite <-!app_assoc. simpl. by rewrite <-?app_assoc.
  - intros Hfree. rewrite Hfs.
    rewrite (for_each_convert_item_frame _ _ _ _ _ _ Hpost Hfree). exact Htext.
Qed.

End SharedFilename.

Lemma shared_filename_overwrites_witness :
  let w := example_world "[a, a']" in
  let w' := (bdd100k_to_yolov8 (H := example_lib) "in.json" "labels" "src"
               "images" [("bike", 0); ("car", 1)] w).2 in
  1 = size (list_to_set (name <$> [record_a; record_a']) : gset string)
  ∧ fs w' !! label_path (H := example_lib) "labels" record_a'
    = Some (labels_text [("bike", 0); ("car", 1)] (labels record_a')).
Proof.
  intros w w'.
  destruct (shared_filename_overwrites (H := example_lib) "labels" "src" "images"
              [("bike", 0); ("car", 1)] "in.json" w 1 0 [("car", 2); ("bike", 1)]
              w' [] record_a [] record_a' [])
    as (Hn & _ & _ & Htext).
  - reflexivity.
  - reflexivity.
  - by eexists.
  - vm_compute. reflexivity.
  - split; [exact Hn|]. apply Htext. constructor.
Defined.

(** ** Binary64 division of a magnitude by a larger one *)

Section Binary64.
Local Open Scope Z_scope.

Lemma digits2_pos_bounds p :
  2 ^ (Zpos (digits2_pos p) - 1) ≤ Zpos p < 2 ^ Zpos (digits2_pos p).
Proof.
  induction p as [p IH|p IH|]; simpl digits2_pos.
  - rewrite Pos2Z.inj_succ.
    replace (Z.succ (Zpos (digits2_pos p)) - 1) with (Z.succ (Zpos (digits2_pos p) - 1)) by lia.
    rewrite !Z.pow_succ_r by lia. lia.
  - rewrite Pos2Z.inj_succ.
    replace (Z.succ (Zpos (digits2_pos p)) - 1) with (Z.succ (Zpos (digits2_pos p) - 1)) by lia.
    rewrite !Z.pow_succ_r by lia. lia.
  - simpl. lia.
Qed.

Lemma Zdigits2_le q k : 0 ≤ q < 2 ^ k → 0 ≤ k → Zdigits2 q ≤ k.
Proof.
  intros [Hq Hlt] Hk. destruct q as [|p|p]; simpl; [lia| |lia].
  pose proof (digits2_pos_bounds p) as [Hlo _].
  destruct (Z.le_gt_cases (Zpos (digits2_pos p)) k) as [|Hgt]; [done|].
  assert (2 ^ k ≤ 2 ^ (Zpos (digits2_pos p) - 1)) by (apply Z.pow_le_mono_r; lia).
  lia.
Qed.

Lemma shr_1_spec mrs :
  0 ≤ shr_m mrs → 0 ≤ shr_m (shr_1 mrs) ∧ 2 * shr_m (shr_1 mrs) ≤ shr_m mrs.
Proof. destruct mrs as [[|[p|p|]|p] r s]; simpl; lia. Qed.

Lemma iter_pos_shr_1 p mrs :
  0 ≤ shr_m mrs →
  0 ≤ shr_m (SpecFloat.iter_pos shr_1 p mrs)
  ∧ shr_m (SpecFloat.iter_pos shr_1 p mrs) * 2 ^ Zpos p ≤ shr_m mrs.
Proof.
  revert mrs. induction p as [p IH|p IH|]; intros mrs Hm; simpl SpecFloat.iter_pos.
  - destruct (shr_1_spec mrs Hm) as [H0 H1].
    destruct (IH _ H0) as [H2 H3]. destruct (IH _ H2) as [H4 H5].
    split; [done|].
    replace (Zpos p~1) with (Zpos p + Zpos p + 1) by lia.
    rewrite !Z.pow_add_r, Z.pow_1_r by lia.
    pose proof (Z.pow_pos_nonneg 2 (Zpos p)).
    remember (2 ^ Zpos p) as P.
    remember (shr_m (SpecFloat.iter_pos shr_1 p (SpecFloat.iter_pos shr_1 p (shr_1 mrs)))) as c.
    remember (shr_m (SpecFloat.iter_pos shr_1 p (shr_1 mrs))) as b.
    assert (c * P * P ≤ b * P) by (apply Z.mul_le_mono_nonneg_r; lia).
    lia.
  - destruct (IH _ Hm) as [H2 H3]. destruct (IH _ H2) as [H4 H5].
    split; [done|].
    replace (Zpos p~0) with (Zpos p + Zpos p) by lia.
    rewrite !Z.pow_add_r by lia.
    pose proof (Z.pow_pos_nonneg 2 (Zpos p)).
    remember (2 ^ Zpos p) as P.
    remember (shr_m (SpecFloat.iter_pos shr_1 p (SpecFloat.iter_pos shr_1 p mrs))) as c.
    remember (shr_m (SpecFloat.iter_pos shr_1 p mrs)) as b.
    assert (c * P * P ≤ b * P) by (apply Z.mul_le_mono_nonneg_r; lia).
    lia.
  - destruct (shr_1_spec mrs Hm) as [H0 H1]. split; [done|].
    change (2 ^ 1) with 2. lia.
Qed.

Lemma fexp_unfold e : fexp prec emax e = fexp64 e.
Proof. reflexivity. Qed.

(** [shr_fexp] truncates: the mantissa shrinks by the power of two the
    exponent grows by. *)
Lemma shr_fexp_spec m e l mrs e1 :
  0 ≤ m →
  shr_fexp prec emax m e l = (mrs, e1) →
  0 ≤ shr_m mrs
  ∧ e1 = Z.max e (fexp64 (Zdigits2 m + e))
  ∧ shr_m mrs * 2 ^ (e1 - e) ≤ m.
Proof.
  intros Hm. unfold shr_fexp, shr. rewrite fexp_unfold.
  assert (shr_m (shr_record_of_loc m l) = m) as Hrec.
  { by destruct l as [|[]]. }
  destruct (fexp64 (Zdigits2 m + e) - e) as [|p|p] eqn:Hn.
  - intros [= <- <-]. rewrite Hrec.
    replace (Z.max e (fexp64 (Zdigits2 m + e))) with e by lia.
    rewrite Z.sub_diag. simpl. lia.
  - intros [= <- <-].
    destruct (iter_pos_shr_1 p (shr_record_of_loc m l)) as [H0 H1]; [lia|].
    rewrite Hrec in H1.
    replace (Z.max e (fexp64 (Zdigits2 m + e))) with (e + Zpos p) by lia.
    replace (e + Zpos p - e) with (Zpos p) by lia. done.
  - intros [= <- <-]. rewrite Hrec.
    replace (Z.max e (fexp64 (Zdigits2 m + e))) with e by lia.
    rewrite Z.sub_diag. simpl. lia.
Qed.

Lemma round_nearest_even_bounds m l :
  m ≤ round_nearest_even m l ≤ m + 1.
Proof. destruct l as [|[]]; simpl; try destruct (Z.even m); lia. Qed.

(** Rounding a magnitude below one gives zero or a float of at most one. *)
Lemma binary_round_aux_le_one q e l :
  0 ≤ q → e ≤ -53 → q < 2 ^ (- e) →
  binary_round_aux prec emax false q e l = S754_zero false
  ∨ ∃ m e2, binary_round_aux prec emax false q e l = S754_finite false m e2
            ∧ e2 ≤ 0 ∧ Zpos m ≤ 2 ^ (- e2).
Proof.
  intros Hq He Hlt. unfold binary_round_aux.
  destruct (shr_fexp prec emax q e l) as [mrs1 e1] eqn:Hshr1.
  apply shr_fexp_spec in Hshr1 as (Hm1 & He1 & Hle1); [|done].
  assert (Zdigits2 q + e ≤ 0) as Hdig.
  { assert (Zdigits2 q ≤ - e) by (apply Zdigits2_le; lia). lia. }
  assert (e ≤ e1 ≤ -53) as He1b by (unfold fexp64 in He1; lia).
  assert (shr_m mrs1 < 2 ^ (- e1)) as Hm1lt.
  { assert (2 ^ (- e) = 2 ^ (- e1) * 2 ^ (e1 - e)) as Hpow.
    { rewrite <-Z.pow_add_r by lia. f_equal. lia. }
    pose proof (Z.pow_pos_nonneg 2 (e1 - e)).
    pose proof (Z.pow_pos_nonneg 2 (- e1)).
    rewrite Hpow in Hlt. nia. }
  pose proof (round_nearest_even_bounds (shr_m mrs1) (loc_of_shr_record mrs1))
    as Hround.
  set (m2 := round_nearest_even (shr_m mrs1) (loc_of_shr_record mrs1)) in *.
  destruct (shr_fexp prec emax m2 e1 loc_Exact) as [mrs2 e2] eqn:Hshr2.
  apply shr_fexp_spec in Hshr2 as (Hm3 & He2 & Hle2); [|lia].
  assert (Zdigits2 m2 ≤ - e1 + 1) as Hdig2.
  { apply Zdigits2_le; [|lia]. split; [lia|].
    rewrite Z.pow_add_r, Z.pow_1_r by lia. lia. }
  assert (e1 ≤ e2 ≤ -52) as He2b by (unfold fexp64 in He2; lia).
  assert (shr_m mrs2 ≤ 2 ^ (- e2)) as Hm3le.
  { assert (2 ^ (- e1) = 2 ^ (- e2) * 2 ^ (e2 - e1)) as Hpow.
    { rewrite <-Z.pow_add_r by lia. f_equal. lia. }
    pose proof (Z.pow_pos_nonneg 2 (e2 - e1)).
    pose proof (Z.pow_pos_nonneg 2 (- e2)).
    nia. }
  destruct (shr_m mrs2) as [|m3|m3] eqn:Hm; [by left| |lia].
  right. exists m3, e2.
  replace (e2 <=? emax - prec) with true; [split; [done|lia]|].
  symmetry. apply Z.leb_le. unfold emax, prec. lia.
Qed.

Lemma SFdiv_lt_one mx ex my ey :
  mag_lt mx ex my ey →
  SFdiv prec emax (S754_finite false mx ex) (S754_finite false my ey)
  = S754_zero false
  ∨ ∃ m e, SFdiv prec emax (S754_finite false mx ex) (S754_finite false my ey)
           = S754_finite false m e
           ∧ e ≤ 0 ∧ Zpos m ≤ 2 ^ (- e).
Proof.
  unfold mag_lt. intros Hlt.
  unfold SFdiv, SFdiv_core_binary. rewrite fexp_unfold.
  cbn [Zdigits2 xorb].
  pose proof (digits2_pos_bounds mx) as [Hdx _].
  pose proof (digits2_pos_bounds my) as [_ Hdy].
  set (d1 := Zpos (digits2_pos mx)) in *.
  set (d2 := Zpos (digits2_pos my)) in *.
  set (k := Z.min ex ey) in *.
  assert (d1 + ex ≤ d2 + ey) as Hd.
  { destruct (Z.le_gt_cases (d1 + ex) (d2 + ey)) as [|Hgt]; [done|exfalso].
    assert (2 ^ (d2 + ey - k) ≤ 2 ^ (d1 - 1 + ex - k)) as Hpow
      by (apply Z.pow_le_mono_r; lia).
    replace (d2 + ey - k) with (d2 + (ey - k)) in Hpow by lia.
    replace (d1 - 1 + ex - k) with ((d1 - 1) + (ex - k)) in Hpow by lia.
    rewrite !Z.pow_add_r in Hpow by lia.
    pose proof (Z.pow_pos_nonneg 2 (ex - k)).
    pose proof (Z.pow_pos_nonneg 2 (ey - k)).
    nia. }
  set (e' := Z.min (fexp64 (d1 + ex - (d2 + ey))) (ex - ey)).
  assert (e' ≤ -53) as He' by (unfold e', fexp64; lia).
  assert (e' ≤ ex - ey) as Hs by (unfold e'; lia).
  set (m' := match ex - ey - e' with
             | 0 => Zpos mx
             | Zpos _ => Z.shiftl (Zpos mx) (ex - ey - e')
             | Zneg _ => 0
             end).
  assert (m' = Zpos mx * 2 ^ (ex - ey - e')) as Hm'.
  { unfold m'. destruct (ex - ey - e') as [|p|p] eqn:Hsv; [simpl; lia| |lia].
    by rewrite Z.shiftl_mul_pow2. }
  assert (m' < Zpos my * 2 ^ (- e')) as Hq.
  { rewrite Hm'.
    pose proof (Z.pow_pos_nonneg 2 (ex - k)).
    pose proof (Z.pow_pos_nonneg 2 (ey - k)).
    destruct (Z.le_ge_cases ex ey) as [Hle|Hge].
    - assert (k = ex) as Hk by (unfold k; lia).
      rewrite Hk, Z.sub_diag, Z.pow_0_r in Hlt.
      replace (- e') with ((ey - ex) + (ex - ey - e')) by lia.
      rewrite Z.pow_add_r by lia.
      pose proof (Z.pow_pos_nonneg 2 (ex - ey - e')). nia.
    - assert (k = ey) as Hk by (unfold k; lia).
      rewrite Hk, Z.sub_diag, Z.pow_0_r in Hlt.
      replace (ex - ey - e') with ((ex - ey) + (- e')) by lia.
      rewrite Z.pow_add_r by lia.
      pose proof (Z.pow_pos_nonneg 2 (- e')). nia. }
  assert (0 ≤ m') as Hm'0.
  { rewrite Hm'. pose proof (Z.pow_pos_nonneg 2 (ex - ey - e')). nia. }
  clearbody m'.
  pose proof (Z_div_mod m' (Zpos my) eq_refl) as Hdiv.
  destruct (Z.div_eucl m' (Zpos my)) as [q r].
  destruct Hdiv as [Heq Hr].
  apply binary_round_aux_le_one; [nia|done|].
  pose proof (Z.pow_pos_nonneg 2 (- e')). nia.
Qed.

End Binary64.

Section Normalisation.
Local Open Scope Z_scope.

Lemma round_half_even_le num den bound :
  0 < den → 0 ≤ num ≤ bound * den → 0 ≤ round_half_even num den ≤ bound.
Proof.
  intros Hden [Hnum Hle]. unfold round_half_even.
  pose proof (Z.div_mod num den ltac:(lia)) as Hdm.
  pose proof (Z.mod_pos_bound num den Hden) as Hr.
  assert (0 ≤ num / den) as Hq0 by (apply Z.div_pos; lia).
  assert (num / den ≤ bound) as Hq.
  { apply Z.div_le_upper_bound; lia. }
  assert (num / den = bound → num mod den = 0) as Hexact by nia.
  destruct (2 * (num mod den) ?= den) eqn:Hcmp.
  - apply Z.compare_eq in Hcmp. destruct (Z.even (num / den)); lia.
  - lia.
  - apply Z.compare_gt_iff in Hcmp. lia.
Qed.

(** A float of at most one is written as at most 1.000000. *)
Lemma micro6_le_one m e :
  e ≤ 0 → Zpos m ≤ 2 ^ (- e) → 0 ≤ micro6 m e ≤ 10 ^ 6.
Proof.
  intros He Hm. unfold micro6. destruct e as [|p|p]; [|lia|].
  - simpl in Hm. assert (Zpos m = 1) as -> by lia. simpl. lia.
  - change (- Zneg p) with (Zpos p) in Hm.
    apply round_half_even_le; [by apply Z.pow_pos_nonneg|lia].
Qed.

Lemma SFdiv_lt_one_unit mx ex my ey :
  mag_lt mx ex my ey →
  in_unit_interval
    (SFdiv prec emax (S754_finite false mx ex) (S754_finite false my ey))
  ∧ ∀ s, SFdiv prec emax (S754_finite false mx ex) (S754_finite false my ey)
         ≠ S754_infinity s.
Proof.
  intros Hlt. destruct (SFdiv_lt_one _ _ _ _ Hlt) as [->|(m & e & -> & He & Hm)].
  - split; [|done]. exists 0. split; [done|lia].
  - split; [|done]. exists (micro6 m e). split; [done|by apply micro6_le_one].
Qed.

(** Dividing a number between 0 and [hi] by [hi] never overflows and
    gives a quotient that is written as a number between 0 and 1; [my]
    and [ey] are the mantissa and the exponent of the float of [hi]. *)
Lemma truediv_in_range x hi my ey :
  float_of_pos hi = S754_finite false my ey →
  ey ≤ 0 → Zpos my = Zpos hi * 2 ^ (- ey) → 2 ^ 52 ≤ Zpos my →
  in_unit_interval (SFdiv prec emax (S754_finite false my ey)
                      (S754_finite false my ey)) →
  SFdiv prec emax (S754_finite false hi 0) (S754_finite false my ey)
  = SFdiv prec emax (S754_finite false my ey) (S754_finite false my ey) →
  in_range x hi →
  ∃ q, truediv x hi = Ok q ∧ in_unit_interval q.
Proof.
  intros Hhi Hey Hmy Hnorm Hone Hint Hx.
  destruct x as [n|f]; simpl in Hx.
  - destruct n as [|p|p]; [| |lia].
    + exists (S754_zero false). split; [done|]. exists 0. split; [done|lia].
    + unfold truediv. rewrite Hhi.
      assert (Zpos p < Zpos hi ∨ p = hi) as [Hlt| ->] by lia.
      * destruct (SFdiv_lt_one_unit p 0 my ey) as [Hunit Hfin].
        { unfold mag_lt. replace (Z.min 0 ey) with ey by lia.
          rewrite Z.sub_diag, Z.pow_0_r, Z.sub_0_l, Hmy.
          pose proof (Z.pow_pos_nonneg 2 (- ey)). nia. }
        destruct (SFdiv prec emax (S754_finite false p 0)
                    (S754_finite false my ey)) as [s|s| |s m e] eqn:Hq.
        -- exists (S754_zero s). by split.
        -- by destruct (Hfin s).
        -- exists S754_nan. by split.
        -- exists (S754_finite s m e). by split.
      * rewrite Hint.
        destruct (SFdiv prec emax (S754_finite false my ey)
                    (S754_finite false my ey)) as [s|s| |s m e] eqn:Hq.
        -- exists (S754_zero s). by split.
        -- by destruct Hone as (k & Hk & _).
        -- exists S754_nan. by split.
        -- exists (S754_finite s m e). by split.
  - destruct Hx as (Hvalid & Hlo & Hle). unfold truediv. eexists. split; [done|].
    rewrite Hhi in *. destruct f as [s|s| |s m e].
    + exists 0. split; [by destruct s|lia].
    + by destruct s.
    + done.
    + destruct s; [done|].
      unfold SFleb, SFcompare in Hle. simpl in Hvalid.
      apply andb_prop in Hvalid as [Hcanon _].
      unfold canonical_mantissa in Hcanon. apply Z.eqb_eq in Hcanon.
      rewrite fexp_unfold in Hcanon. unfold fexp64 in Hcanon.
      pose proof (digits2_pos_bounds m) as [_ Hm].
      assert (Zpos m < 2 ^ 53) as Hm53.
      { eapply Z.lt_le_trans; [exact Hm|]. apply Z.pow_le_mono_r; lia. }
      destruct (e ?= ey) eqn:Hcmp.
      * apply Z.compare_eq in Hcmp as ->.
        change (Pos.compare_cont Eq m my) with (m ?= my)%positive in Hle.
        destruct (m ?= my)%positive eqn:Hcm; [| |done].
        -- apply Pos.compare_eq in Hcm as ->. exact Hone.
        -- apply SFdiv_lt_one_unit. unfold mag_lt.
           rewrite Z.min_id, Z.sub_diag, Z.pow_0_r.
           pose proof (proj1 (Pos.compare_lt_iff m my) Hcm) as Hlt. lia.
      * pose proof (proj1 (Z.compare_lt_iff e ey) Hcmp) as Hlt.
        apply SFdiv_lt_one_unit. unfold mag_lt.
        replace (Z.min e ey) with e by lia.
        rewrite Z.sub_diag, Z.pow_0_r.
        assert (2 ^ 1 ≤ 2 ^ (ey - e)) by (apply Z.pow_le_mono_r; lia).
        change (2 ^ 52) with 4503599627370496 in Hnorm.
        change (2 ^ 53) with 9007199254740992 in Hm53.
        change (2 ^ 1) with 2 in *. nia.
      * done.
Qed.

Lemma truediv_width x :
  in_range x IMAGE_WIDTH → ∃ q, truediv x IMAGE_WIDTH = Ok q ∧ in_unit_interval q.
Proof.
  apply (truediv_in_range x IMAGE_WIDTH 5629499534213120 (-42));
    try (vm_compute; done).
  exists (10 ^ 6). by vm_compute.
Qed.

Lemma truediv_height y :
  in_range y IMAGE_HEIGHT → ∃ q, truediv y IMAGE_HEIGHT = Ok q ∧ in_unit_interval q.
Proof.
  apply (truediv_in_range y IMAGE_HEIGHT 6333186975989760 (-43));
    try (vm_compute; done).
  exists (10 ^ 6). by vm_compute.
Qed.

End Normalisation.

(** ** The text of a quotient *)

Lemma string_length_app (s1 s2 : string) :
  String.length (s1 +:+ s2) = String.length s1 + String.length s2.
Proof.
  induction s1 as [|a s1 IH]; [done|].
  change (S (String.length (s1 +:+ s2)) = S (String.length s1 + String.length s2)).
  by rewrite IH.
Qed.

Lemma pretty_N_go_length (k : nat) (x : N) (s : string) :
  (x < 10 ^ N.of_nat k)%N →
  String.length (pretty_N_go x s) ≤ k + String.length s.
Proof.
  revert x s. induction k as [|k IH]; intros x s Hx.
  - assert (x = 0%N) as -> by (simpl in Hx; lia). by rewrite pretty_N_go_0.
  - destruct (decide (x = 0)%N) as [->|Hne].
    + rewrite pretty_N_go_0. lia.
    + rewrite pretty_N_go_step by lia.
      etrans; [apply IH|simpl; lia].
      apply N.Div0.div_lt_upper_bound.
      rewrite Nat2N.inj_succ, N.pow_succ_r' in Hx. lia.
Qed.

Lemma pretty_N_length (k : nat) (x : N) :
  1 ≤ k → (x < 10 ^ N.of_nat k)%N → String.length (pretty x) ≤ k.
Proof.
  intros Hk Hx. unfold pretty, pretty_N.
  destruct (decide (x = 0)%N); [simpl; lia|].
  etrans; [by apply pretty_N_go_length|]. simpl. lia.
Qed.

Lemma length_zeros (k : nat) :
  String.length (String.concat "" (replicate k "0")) = k.
Proof.
  induction k as [|k IH]; [done|].
  destruct k as [|k]; [done|].
  change (String.length ("0" +:+ "" +:+ String.concat "" (replicate (S k) "0"))
          = S (S k)).
  rewrite !string_length_app, IH. done.
Qed.

Lemma length_pad6 (n : Z) :
  (0 ≤ n < 10 ^ 6)%Z → String.length (pad6 n) = 6.
Proof.
  intros Hn. unfold pad6. rewrite string_length_app, length_zeros.
  assert (String.length (pretty (Z.to_N n)) ≤ 6); [|lia].
  apply pretty_N_length; [lia|]. change (10 ^ N.of_nat 6)%N with 1000000%N.
  lia.
Qed.

(** Every finite number is written with a point and six digits after it. *)
Lemma format_6f_six_decimals (x : float64) (n : Z) :
  millionths x = Some n →
  ∃ sign whole frac,
    format_6f x = sign +:+ whole +:+ "." +:+ frac ∧ String.length frac = 6.
Proof.
  assert (∀ s k, ∃ sign whole frac,
             fixed6 s k = sign +:+ whole +:+ "." +:+ frac
             ∧ String.length frac = 6) as Hfixed.
  { intros s k. unfold fixed6. eexists _, _, _. split; [reflexivity|].
    apply length_pad6. apply Z.mod_pos_bound. done. }
  destruct x as [s|s| |s m e]; try done; intros _; apply Hfixed.
Qed.

(** ** The flattened polygon *)

Lemma poly_flat_Ok poly flat :
  poly_flat poly = Ok flat →
  length flat = 2 * length poly
  ∧ ∀ i x y, poly !! i = Some (x, y) →
      ∃ xn yn, truediv x IMAGE_WIDTH = Ok xn ∧ truediv y IMAGE_HEIGHT = Ok yn
               ∧ flat !! (2 * i) = Some xn ∧ flat !! (2 * i + 1) = Some yn.
Proof.
  revert flat. induction poly as [|[x y] poly IH]; intros flat; simpl.
  - intros [= <-]. split; [done|]. intros i x y Hi. by rewrite lookup_nil in Hi.
  - destruct (truediv x IMAGE_WIDTH) as [xn|] eqn:Hx; [|done].
    destruct (truediv y IMAGE_HEIGHT) as [yn|] eqn:Hy; [|done].
    destruct (poly_flat poly) as [rest|] eqn:Hrest; [|done].
    intros [= <-]. destruct (IH rest eq_refl) as [Hlen Hall].
    split; [simpl; lia|].
    intros [|i] x' y' Hi.
    + injection Hi as <- <-. by exists xn, yn.
    + simpl in Hi. destruct (Hall i x' y' Hi) as (xn' & yn' & ? & ? & ? & ?).
      exists xn', yn'.
      assert (S i + (S i + 0) = S (S (2 * i))) as -> by lia.
      assert (S (S (2 * i)) + 1 = S (S (2 * i + 1))) as -> by lia.
      by split_and!.
Qed.

(** A polygon inside the image always flattens, to quotients that are
    written as numbers between 0 and 1. *)
Lemma poly_flat_in_range poly :
  Forall (λ '(x, y), in_range x IMAGE_WIDTH ∧ in_range y IMAGE_HEIGHT) poly →
  ∃ flat, poly_flat poly = Ok flat ∧ Forall in_unit_interval flat.
Proof.
  induction 1 as [|[x y] poly [Hx Hy] _ (rest & Hrest & Hall)]; simpl.
  - by exists [].
  - destruct (truediv_width x Hx) as (xn & -> & Hxn).
    destruct (truediv_height y Hy) as (yn & -> & Hyn).
    rewrite Hrest. exists (xn :: yn :: rest). split; [done|].
    by repeat constructor.
Qed.

(** C4: the line written for a label whose first polygon has k >= 3
    vertices is the category id, a space, the 2 k quotients x0/1280,
    y0/720, x1/1280, ... separated by spaces, and a newline; each finite
    quotient is written with a point and exactly six digits after it; a
    polygon whose coordinates lie in [0,1280] x [0,720] is always
    written, and each value written for it is between 0.000000 and
    1.000000; the vertex (640, 360) is written [0.500000 0.500000],
    given as integers or as floats. *)
Theorem yolo_line_normalised :
  (∀ out m label first rest c id counts w counts' w',
      poly2d label = Some (first :: rest) →
      category label = Some c →
      mapping_get c m = Some id →
      3 ≤ length (vertices first) →
      convert_label out m label counts w = (Ok counts', w') →
      ∃ flat,
        poly_flat (vertices first) = Ok flat
        ∧ length flat = 2 * length (vertices first)
        ∧ (∀ i x y, vertices first !! i = Some (x, y) →
             ∃ xn yn, truediv x 1280 = Ok xn ∧ truediv y 720 = Ok yn
                      ∧ flat !! (2 * i) = Some xn
                      ∧ flat !! (2 * i + 1) = Some yn)
        ∧ log w' = log w ++ [EvWrite out (yolo_line id flat)]
        ∧ fs w' !! out
          = Some (default "" (fs w !! out) +:+ yolo_line id flat))
  ∧ (∀ id flat,
        yolo_line id flat
        = pretty id +:+ " " +:+ String.concat " " (format_6f <$> flat) +:+ NL)
  ∧ (∀ x n, millionths x = Some n →
        ∃ sign whole frac,
          format_6f x = sign +:+ whole +:+ "." +:+ frac
          ∧ String.length frac = 6)
  ∧ (∀ poly,
        Forall (λ '(x, y), in_range x 1280 ∧ in_range y 720) poly →
        ∃ flat, poly_flat poly = Ok flat
                ∧ Forall (λ q, ∃ n, millionths q = Some n
                                    ∧ (0 ≤ n ≤ 1000000)%Z) flat)
  ∧ (∃ flat, poly_flat [(PyInt 640, PyInt 360)] = Ok flat
             ∧ String.concat " " (format_6f <$> flat) = "0.500000 0.500000")
  ∧ (∃ flat, poly_flat [(PyFloat (float_of_pos 640),
                         PyFloat (float_of_pos 360))] = Ok flat
             ∧ String.concat " " (format_6f <$> flat) = "0.500000 0.500000").
Proof.
  split; [|split; [|split; [|split; [|split]]]].
  - intros out m label first rest c id counts w counts' w' Hp Hc Hm Hlen Hrun.
    pose proof Hrun as Hrun'.
    unfold convert_label in Hrun'. rewrite Hp, Hc, Hm in Hrun'.
    rewrite decide_False in Hrun' by lia.
    unfold bind, lift in Hrun'.
    destruct (poly_flat (vertices first)) as [flat|] eqn:Hflat; [|done].
    exists flat. destruct (poly_flat_Ok _ _ Hflat) as [Hl Hall].
    apply convert_label_Ok in Hrun as (_ & Hlog & Hfs).
    assert (label_line m label = Some (yolo_line id flat)) as Hline.
    { unfold label_line. rewrite Hp, Hc, Hm, decide_False by lia.
      by rewrite Hflat. }
    unfold label_events in Hlog. rewrite Hp, Hc, Hm, Hline in Hlog.
    rewrite Hline in Hfs.
    split; [done|]. split; [done|]. split; [exact Hall|].
    split; [exact Hlog|]. by rewrite Hfs, lookup_insert_eq.
  - intros id flat. reflexivity.
  - apply format_6f_six_decimals.
  - apply poly_flat_in_range.
  - eexists. split; [vm_compute; reflexivity|]. vm_compute. reflexivity.
  - eexists. split; [vm_compute; reflexivity|]. vm_compute. reflexivity.
Qed.

Lemma yolo_line_normalised_witness :
  let w := example_world "[a, b]" in
  let w' := (convert_label "labels/a.txt" car_mapping car_label [] w).2 in
  ∃ flat,
    poly_flat (vertices square) = Ok flat
    ∧ length flat = 8
    ∧ fs w' !! "labels/a.txt" = Some (yolo_line 0 flat).
Proof.
  intros w w'.
  destruct (proj1 yolo_line_normalised "labels/a.txt" car_mapping car_label
              square [] "car" 0 [] w [("car", 1)] w')
    as (flat & Hflat & Hlen & _ & _ & Hfs).
  - reflexivity.
  - reflexivity.
  - reflexivity.
  - simpl. lia.
  - vm_compute. reflexivity.
  - exists flat. split; [exact Hflat|]. split; [exact Hlen|exact Hfs].
Defined.

Example in_range_examples :
  in_range (PyFloat (float_of_pos 1280)) IMAGE_WIDTH
  ∧ in_range (PyFloat (S754_zero true)) IMAGE_WIDTH
  ∧ in_range (PyFloat (SFdiv prec emax (float_of_pos 2159) (float_of_pos 3)))
      IMAGE_HEIGHT
  ∧ in_range (PyInt 720) IMAGE_HEIGHT
  ∧ ¬ in_range (PyFloat (float_of_pos 1281)) IMAGE_WIDTH
  ∧ ¬ in_range (PyFloat (S754_finite true 1 (-1074))) IMAGE_WIDTH.
Proof.
  split; [by vm_compute|]. split; [by vm_compute|]. split; [by vm_compute|].
  split; [unfold in_range, IMAGE_HEIGHT; lia|]. split.
  - intros (_ & _ & Hle). by vm_compute in Hle.
  - intros (_ & Hlo & _). by vm_compute in Hlo.
Qed.

(** ** The claims on the example inputs *)


Lemma poly2d_label_needs_category_witness :
  is_Some (category car_label).
Proof.
  destruct (proj2 (proj2 (poly2d_label_needs_category (H := example_lib)))
              "in.json" "labels" "src" "images" car_mapping
              (example_world "[a, b]") (2, 1, [("car", 1)])
              (bdd100k_to_yolov8 (H := example_lib) "in.json" "labels" "src"
                 "images" car_mapping (example_world "[a, b]")).2)
    as (data & Hload & Hall).
  - vm_compute. reflexivity.
  - injection Hload as <-.
    apply (Hall record_a car_label).
    + apply elem_of_cons. by left.
    + by eexists.
    + apply elem_of_cons. by left.
    + by eexists.
Defined.

Lemma poly2d_must_not_be_empty_witness :
  [square] ≠ [].
Proof.
  destruct (proj1 (proj2 (poly2d_must_not_be_empty (H := example_lib)))
              "in.json" "labels" "src" "images" car_mapping
              (example_world "[a, b]") (2, 1, [("car", 1)])
              (bdd100k_to_yolov8 (H := example_lib) "in.json" "labels" "src"
                 "images" car_mapping (example_world "[a, b]")).2)
    as (data & Hload & Hall).
  - vm_compute. reflexivity.
  - injection Hload as <-.
    apply (Hall record_a car_label [square] "car").
    + apply elem_of_cons. by left.
    + by eexists.
    + apply elem_of_cons. by left.
    + reflexivity.
    + reflexivity.
    + by eexists.
Defined.

(** * Further properties of the program *)

Section FurtherFacts.
Context `{PyLib}.

(** ** Unreadable input *)

(** X1: when the label file is absent or is not valid JSON, the
    converter raises [FileNotFoundError] or [JSONDecodeError] at line 21
    and has done nothing: no directory is created, nothing is printed,
    no file is touched. *)
Theorem converter_unreadable_input :
  ∀ input_json output_dir image_src_dir image_dst_dir m w,
    (fs w !! input_json = None →
     bdd100k_to_yolov8 input_json output_dir image_src_dir image_dst_dir m w
     = (Raise (FileNotFoundError input_json), w))
    ∧ (∀ text, fs w !! input_json = Some text → json_loads text = None →
       bdd100k_to_yolov8 input_json output_dir image_src_dir image_dst_dir m w
       = (Raise JSONDecodeError, w)).
Proof.
  intros input_json output_dir image_src_dir image_dst_dir m w.
  unfold bdd100k_to_yolov8, bind, load_json. split.
  - by intros ->.
  - intros text -> Hparse. by rewrite Hparse.
Qed.

(** X2: when the label file of the train split is absent the entry
    point raises at once and leaves the world as it was; when only that
    of the validation split is absent, it raises after the train split
    is converted, in the world that conversion left: no manifest is
    written. *)
Theorem main_label_file_missing :
  ∀ w,
    (fs w !! split_json base_dir "train" = None →
     main w = (Raise (FileNotFoundError (split_json base_dir "train")), w))
    ∧ (∀ train_results w1,
         process_dataset base_dir output_base_dir "train" train_images_src_dir w
         = (Ok train_results, w1) →
         fs w1 !! split_json base_dir "val" = None →
         main w = (Raise (FileNotFoundError (split_json base_dir "val")), w1)).
Proof.
  intros w. split.
  - intros Hnone. unfold main, bind, process_dataset, bind, load_json.
    by rewrite Hnone.
  - intros tr w1 Htrain Hnone. unfold main. unfold bind at 1. rewrite Htrain.
    unfold bind at 1. unfold process_dataset at 1. unfold bind at 1.
    unfold load_json. by rewrite Hnone.
Qed.

(** ** What a run leaves alone *)

(** Whatever its outcome, a record changes at most its text file and the
    copy of its image. *)
Lemma convert_item_run output_dir image_src_dir image_dst_dir m item t w o w' :
  convert_item output_dir image_src_dir image_dst_dir m item t w = (o, w') →
  fs w' = fs w
  ∨ ∃ content text,
      fs w' = <[label_path output_dir item := text]>
                (<[dst_path image_dst_dir item := content]> (fs w)).
Proof.
  intros Hrun.
  destruct (fs w !! src_path image_src_dir item) as [content|] eqn:Hsrc.
  - destruct (decide (src_path image_src_dir item = dst_path image_dst_dir item))
      as [Heq|Hne].
    { rewrite convert_item_same_file in Hrun; [|by eexists|done].
      left. by injection Hrun as _ <-. }
    rewrite (convert_item_found _ _ _ _ _ _ _ content) in Hrun by done.
    unfold bind in Hrun.
    destruct (for_each _ _ _ _) as [[counts|e] w1] eqn:Hloop;
      injection Hrun as _ <-;
      apply for_each_convert_label_prefix in Hloop as (k & _ & Hfs);
      specialize (Hfs "" (lookup_insert_eq _ _ _));
      simpl in Hfs; rewrite insert_insert_eq in Hfs;
      right; by eexists _, _.
  - rewrite convert_item_missing in Hrun by done. left. by injection Hrun as _ <-.
Qed.

Lemma not_elem_of_output_paths_cons output_dir image_dst_dir item data p :
  p ∉ output_paths output_dir image_dst_dir (item :: data) ↔
  label_path output_dir item ≠ p ∧ dst_path image_dst_dir item ≠ p
  ∧ p ∉ output_paths output_dir image_dst_dir data.
Proof.
  unfold output_paths. rewrite !fmap_cons, !elem_of_app, !elem_of_cons.
  split.
  - intros Hp. split_and!.
    + intros Heq. apply Hp. left. by left.
    + intros Heq. apply Hp. right. by left.
    + intros [Hin|Hin]; apply Hp; [left|right]; by right.
  - intros (Ho & Hd & Hp) [[Heq|Hin]|[Heq|Hin]]; [done|tauto|done|tauto].
Qed.

Lemma for_each_convert_item_run output_dir image_src_dir image_dst_dir m
    data t w o w' :
  for_each (convert_item output_dir image_src_dir image_dst_dir m) data t w
  = (o, w') →
  (∀ p, is_Some (fs w !! p) → is_Some (fs w' !! p))
  ∧ (∀ p, p ∉ output_paths output_dir image_dst_dir data →
          fs w' !! p = fs w !! p).
Proof.
  revert t w. induction data as [|item data IH]; intros t w; simpl.
  - by intros [= _ <-].
  - unfold bind.
    destruct (convert_item _ _ _ _ item t w) as [[t1|e] w1] eqn:Hitem.
    + intros Hrest. apply IH in Hrest as [Hkeep Hframe].
      apply convert_item_run in Hitem as [Hfs|(content & text & Hfs)].
      * rewrite Hfs in *. split; [done|].
        intros p Hp. apply Hframe.
        by apply not_elem_of_output_paths_cons in Hp as (_ & _ & Hp).
      * split.
        -- intros p Hp. apply Hkeep. rewrite Hfs, !lookup_insert.
           repeat case_decide; try done; by eexists.
        -- intros p Hp.
           apply not_elem_of_output_paths_cons in Hp as (Ho & Hd & Hp).
           rewrite Hframe by done.
           by rewrite Hfs, !lookup_insert_ne.
    + intros [= _ <-].
      apply convert_item_run in Hitem as [Hfs|(content & text & Hfs)].
      * by rewrite Hfs.
      * split.
        -- intros p Hp. rewrite Hfs, !lookup_insert.
           repeat case_decide; try done; by eexists.
        -- intros p Hp.
           apply not_elem_of_output_paths_cons in Hp as (Ho & Hd & Hp).
           by rewrite Hfs, !lookup_insert_ne.
Qed.

(** A run of the converter, whatever its outcome, either failed to load
    the records and did nothing, or ran the loop over them. *)
Lemma bdd100k_to_yolov8_run input_json output_dir image_src_dir image_dst_dir
    m w o w' :
  bdd100k_to_yolov8 input_json output_dir image_src_dir image_dst_dir m w
  = (o, w') →
  ((∀ data, load_json input_json w ≠ (Ok data, w)) ∧ w' = w)
  ∨ ∃ data o2 w2,
      load_json input_json w = (Ok data, w)
      ∧ for_each (convert_item output_dir image_src_dir image_dst_dir m) data
          {| categories_in_json := []; processed_images := ∅;
             missing_images := [] |}
          {| fs := fs w;
             log := log w ++ [EvMakedirs output_dir; EvMakedirs image_dst_dir] |}
        = (o2, w2)
      ∧ fs w' = fs w2.
Proof.
  unfold bdd100k_to_yolov8. unfold bind at 1.
  destruct (load_json input_json w) as [[data|e] w0] eqn:Hload.
  - pose proof (load_json_Ok _ _ _ _ Hload) as [-> _].
    unfold bind at 1. unfold makedirs at 1, emit at 1.
    unfold bind at 1. unfold makedirs at 1, emit at 1. cbn [fs log].
    rewrite <-app_assoc. cbn [app].
    unfold bind at 1.
    destruct (for_each _ data _ _) as [[t|e] w2] eqn:Hloop.
    + unfold bind. rewrite print_report_run. intros [= _ <-].
      right. by exists data, (Ok t), w2.
    + intros [= _ <-]. right. by exists data, (Raise e), w2.
  - intros [= _ <-]. left.
    unfold load_json in Hload.
    destruct (fs w !! input_json) as [text|]; [|by injection Hload as _ <-].
    destruct (json_loads text); [done|by injection Hload as _ <-].
Qed.

(** X3: whether the converter returns or raises, it deletes nothing:
    every file that was there before the run is there after it. *)
Theorem converter_deletes_nothing :
  ∀ input_json output_dir image_src_dir image_dst_dir m w o w' p,
    bdd100k_to_yolov8 input_json output_dir image_src_dir image_dst_dir m w
    = (o, w') →
    is_Some (fs w !! p) → is_Some (fs w' !! p).
Proof.
  intros input_json output_dir image_src_dir image_dst_dir m w o w' p Hrun Hp.
  apply bdd100k_to_yolov8_run in Hrun
    as [[_ ->]|(data & o2 & w2 & _ & Hloop & ->)]; [done|].
  apply for_each_convert_item_run in Hloop as [Hkeep _]. by apply Hkeep.
Qed.

(** X4: whether the converter returns or raises, a file that is neither
    the text file nor the image copy of a record of the label file has
    the content it had before the run; in particular the source images
    and the label file itself are never modified unless an output path
    coincides with them. *)
Theorem converter_changes_only_outputs :
  ∀ input_json output_dir image_src_dir image_dst_dir m w o w' p,
    bdd100k_to_yolov8 input_json output_dir image_src_dir image_dst_dir m w
    = (o, w') →
    (∀ data, load_json input_json w = (Ok data, w) →
             p ∉ output_paths output_dir image_dst_dir data) →
    fs w' !! p = fs w !! p.
Proof.
  intros input_json output_dir image_src_dir image_dst_dir m w o w' p Hrun Hp.
  apply bdd100k_to_yolov8_run in Hrun
    as [[_ ->]|(data & o2 & w2 & Hload & Hloop & ->)]; [done|].
  apply for_each_convert_item_run in Hloop as [_ Hframe].
  by rewrite Hframe by by apply Hp.
Qed.

(** ** No image at all *)

Lemma for_each_convert_item_all_missing output_dir image_src_dir image_dst_dir m
    data t w :
  Forall (λ item, fs w !! src_path image_src_dir item = None) data →
  for_each (convert_item output_dir image_src_dir image_dst_dir m) data t w
  = (Ok (tally_all_missing data t), w).
Proof.
  revert t. induction data as [|item data IH]; intros t Hall; simpl.
  - unfold tally_all_missing, ret. simpl.
    rewrite (right_id_L ∅ (∪)), app_nil_r. by destruct t.
  - apply Forall_cons in Hall as [Hitem Hall]. unfold bind.
    rewrite convert_item_missing by done. rewrite IH by done.
    unfold tally_all_missing, tally_missing. simpl.
    by rewrite <-app_assoc, (assoc_L (∪)).
Qed.

(** X5: when the label file is read and none of its images is there
    (an empty record list included), the converter returns the number of
    distinct filenames as processed, every record as missing and no
    category count; it creates the two directories and prints the
    report, and changes no file: no image is copied and no text file is
    written. *)
Theorem converter_all_images_missing :
  ∀ input_json output_dir image_src_dir image_dst_dir m w data,
    load_json input_json w = (Ok data, w) →
    Forall (λ item, fs w !! src_path image_src_dir item = None) data →
    let t := {| categories_in_json := [];
                processed_images := list_to_set (name <$> data);
                missing_images := name <$> data |} in
    bdd100k_to_yolov8 input_json output_dir image_src_dir image_dst_dir m w
    = (Ok (size (list_to_set (name <$> data) : gset string), length data, []),
       {| fs := fs w;
          log := log w ++ [EvMakedirs output_dir; EvMakedirs image_dst_dir]
                   ++ (EvPrint <$> report_texts t) |}).
Proof.
  intros input_json output_dir image_src_dir image_dst_dir m w data Hload Hall t.
  unfold bdd100k_to_yolov8. unfold bind at 1. rewrite Hload.
  unfold bind at 1. unfold makedirs at 1, emit at 1.
  unfold bind at 1. unfold makedirs at 1, emit at 1. cbn [fs log].
  unfold bind at 1.
  rewrite for_each_convert_item_all_missing by done.
  unfold tally_all_missing. cbn [categories_in_json processed_images missing_images].
  rewrite (left_id_L ∅ (∪)), app_nil_l. fold t.
  unfold bind. rewrite print_report_run. unfold ret. cbn [fs log].
  rewrite <-!app_assoc. cbn [app].
  by rewrite length_fmap.
Qed.

(** ** The category statistics *)

Lemma counter_get_label_count c label counts :
  counter_get c (label_count label counts)
  = counter_get c counts + polygon_instances c [label].
Proof.
  unfold label_count, polygon_instances.
  destruct (poly2d label) as [polys|] eqn:Hp.
  - destruct (category label) as [c'|] eqn:Hc.
    + destruct (decide (c' = c)) as [->|Hne].
      * rewrite counter_get_incr_eq, filter_cons_True; [simpl; lia|].
        rewrite Hp, Hc. split; [by eexists|done].
      * rewrite counter_get_incr_ne by done.
        rewrite filter_cons_False; [simpl; lia|].
        rewrite Hc. intros [_ [=]]. done.
    + rewrite filter_cons_False; [simpl; lia|]. rewrite Hc. by intros [_ ?].
  - rewrite filter_cons_False; [simpl; lia|]. rewrite Hp.
    intros [[? ?] _]. done.
Qed.

Lemma polygon_instances_app c ls1 ls2 :
  polygon_instances c (ls1 ++ ls2)
  = polygon_instances c ls1 + polygon_instances c ls2.
Proof. unfold polygon_instances. by rewrite filter_app, length_app. Qed.

Lemma counter_get_foldl_label_count c ls counts :
  counter_get c (foldl (λ acc label, label_count label acc) counts ls)
  = counter_get c counts + polygon_instances c ls.
Proof.
  revert counts. induction ls as [|label ls IH]; intros counts; simpl.
  - unfold polygon_instances. simpl. lia.
  - rewrite IH, counter_get_label_count.
    change (label :: ls) with ([label] ++ ls).
    rewrite (polygon_instances_app c [label] ls). lia.
Qed.

Lemma all_labels_cons item data :
  all_labels (item :: data) = labels item ++ all_labels data.
Proof. reflexivity. Qed.

Lemma for_each_convert_item_counts output_dir image_src_dir image_dst_dir m
    data t w t' w' c :
  for_each (convert_item output_dir image_src_dir image_dst_dir m) data t w
  = (Ok t', w') →
  ∃ j, length (missing_images t') = length (missing_images t) + j
       ∧ counter_get c (categories_in_json t')
         ≤ counter_get c (categories_in_json t)
           + polygon_instances c (all_labels data)
       ∧ (j = 0 →
          counter_get c (categories_in_json t')
          = counter_get c (categories_in_json t)
            + polygon_instances c (all_labels data)).
Proof.
  revert t w. induction data as [|item data IH]; intros t w Hrun; simpl in Hrun.
  - injection Hrun as <- <-. exists 0. unfold all_labels, polygon_instances.
    simpl. lia.
  - apply bind_Ok_inv in Hrun as (t1 & w1 & Hitem & Hrest).
    apply IH in Hrest as (j & Hlen & Hle & Heq).
    rewrite all_labels_cons, polygon_instances_app.
    apply convert_item_Ok in Hitem
      as [(_ & -> & _)|(content & _ & _ & -> & _)]; simpl in *.
    + exists (S j). rewrite length_app in Hlen. simpl in Hlen.
      split; [lia|]. split; [lia|]. intros [=].
    + exists j. rewrite counter_get_foldl_label_count in *.
      split; [done|]. split; [lia|]. intros Hj. specialize (Heq Hj). lia.
Qed.

(** X6: in a run that returns, the count of a category is at most the
    number of labels of that category that carry a polygon list, and is
    exactly that number when no image is missing: every such label is
    counted, also one whose polygon has fewer than 3 vertices or whose
    category is not in the mapping and that therefore wrote no line. *)
Theorem category_counts_polygon_labels :
  ∀ input_json output_dir image_src_dir image_dst_dir m w n k counts w',
    bdd100k_to_yolov8 input_json output_dir image_src_dir image_dst_dir m w
    = (Ok (n, k, counts), w') →
    ∃ data,
      load_json input_json w = (Ok data, w)
      ∧ ∀ c, counter_get c counts ≤ polygon_instances c (all_labels data)
             ∧ (k = 0 →
                counter_get c counts = polygon_instances c (all_labels data)).
Proof.
  intros input_json output_dir image_src_dir image_dst_dir m w n k counts w' Hrun.
  apply bdd100k_to_yolov8_Ok in Hrun
    as (data & t & w2 & Hload & Hloop & _ & -> & -> & _).
  exists data. split; [done|]. intros c.
  destruct (for_each_convert_item_counts _ _ _ _ _ _ _ _ _ c Hloop)
    as (j & Hlen & Hle & Heq).
  simpl in *. split; [lia|]. intros Hk. apply Heq. lia.
Qed.

(** ** Converting in place *)

Lemma for_each_convert_item_found_distinct output_dir image_src_dir image_dst_dir
    m data t w t' w' :
  for_each (convert_item output_dir image_src_dir image_dst_dir m) data t w
  = (Ok t', w') →
  Forall (λ item, is_Some (fs w !! src_path image_src_dir item) →
                  src_path image_src_dir item ≠ dst_path image_dst_dir item)
         data.
Proof.
  revert t w. induction data as [|item data IH]; intros t w Hrun;
    simpl in Hrun; [done|].
  apply bind_Ok_inv in Hrun as (t1 & w1 & Hitem & Hrest).
  pose proof (λ p, convert_item_fs_mono _ _ _ _ _ _ _ _ _ p Hitem) as Hmono.
  apply IH in Hrest. constructor.
  - intros [content Hsrc].
    apply convert_item_Ok in Hitem as [(Hnone & _)|(c & _ & Hne & _)];
      [congruence|done].
  - eapply Forall_impl; [exact Hrest|]. simpl.
    intros item' Himp Hs. apply Himp, Hmono, Hs.
Qed.

(** X7: the converter cannot convert in place: when the images are read
    from the directory they are copied to, a run returns only if not a
    single image of the label file is there; the first image found makes
    the copy fail ([SameFileError] is not caught at line 41). *)
Theorem converter_in_place_needs_no_image :
  ∀ input_json output_dir image_dir m w result w',
    bdd100k_to_yolov8 input_json output_dir image_dir image_dir m w
    = (Ok result, w') →
    ∃ data,
      load_json input_json w = (Ok data, w)
      ∧ ∀ item, item ∈ data → fs w !! src_path image_dir item = None.
Proof.
  intros input_json output_dir image_dir m w [[n k] counts] w' Hrun.
  apply bdd100k_to_yolov8_Ok in Hrun as (data & t & w2 & Hload & Hloop & _).
  exists data. split; [done|]. intros item Hitem.
  apply for_each_convert_item_found_distinct in Hloop.
  rewrite Forall_forall in Hloop. specialize (Hloop item Hitem). simpl in Hloop.
  destruct (fs w !! src_path image_dir item) as [content|] eqn:Hsrc; [|done].
  exfalso. apply Hloop; [by eexists|]. done.
Qed.

End FurtherFacts.

(** ** The mapping as a function of the categories *)

(** X8: the mapping depends only on which category names the label file
    mentions: two record sequences that mention the same names get the
    same mapping, whatever the order of the records, the number of times
    a name occurs and the labels it occurs on. *)
Theorem category_mapping_depends_on_names :
  ∀ data1 data2 : list AnnotationRecord,
    (∀ c, (∃ item label, item ∈ data1 ∧ label ∈ labels item
                         ∧ category label = Some c)
          ↔ (∃ item label, item ∈ data2 ∧ label ∈ labels item
                           ∧ category label = Some c)) →
    update_category_mapping data1 = update_category_mapping data2.
Proof.
  intros data1 data2 Hsame. unfold update_category_mapping.
  assert (collect_categories data1 ∅ = collect_categories data2 ∅) as ->; [|done].
  apply set_eq. intros c. rewrite !elem_of_collect_categories.
  split; (intros [Hc|Hc]; [by apply not_elem_of_empty in Hc|]);
    right; by apply Hsame.
Qed.

Lemma mapping_get_enumerate_from k l c i :
  NoDup l →
  mapping_get c (enumerate_from k l) = Some i ↔
  ∃ j, i = k + j ∧ l !! j = Some c.
Proof.
  intros Hnd. revert k. induction Hnd as [|c' l Hnotin Hnd IH]; intros k; simpl.
  - split; [done|]. by intros (j & _ & Hj).
  - destruct (decide (c' = c)) as [->|Hne].
    + split.
      * intros [= <-]. exists 0. split; [lia|done].
      * intros ([|j] & -> & Hj); [f_equal; lia|].
        simpl in Hj. apply list_elem_of_lookup_2 in Hj. done.
    + rewrite IH. split.
      * intros (j & -> & Hj). exists (S j). split; [lia|done].
      * intros ([|j] & -> & Hj); [simpl in Hj; congruence|].
        exists j. split; [lia|done].
Qed.

(** X9: the id of a category is its position in the list of names of the
    mapping: looking a name up gives [i] exactly when the name is the
    [i]-th key, so an id written in a label file selects its own name in
    a [names:] list made of the keys of the same mapping. *)
Theorem category_id_is_position :
  ∀ (json_data : list AnnotationRecord) c i,
    mapping_get c (update_category_mapping json_data) = Some i
    ↔ (update_category_mapping json_data).*1 !! i = Some c.
Proof.
  intros json_data c i. unfold update_category_mapping.
  rewrite enumerate_from_keys, mapping_get_enumerate_from by apply NoDup_sorted.
  split; [by intros (j & -> & Hj)|]. intros Hi. by exists i.
Qed.

Section FurtherOutputs.
Context `{PyLib}.

(** ** The files of a run with separate paths *)

Lemma not_elem_of_output_paths_Forall output_dir image_dst_dir data p :
  p ∉ output_paths output_dir image_dst_dir data →
  Forall (λ r, label_path output_dir r ≠ p ∧ dst_path image_dst_dir r ≠ p) data.
Proof.
  induction data as [|item data IH]; [done|].
  intros (Ho & Hd & Hp)%not_elem_of_output_paths_cons.
  constructor; [done|by apply IH].
Qed.

Lemma output_paths_split output_dir image_dst_dir pre item post :
  output_paths output_dir image_dst_dir (pre ++ item :: post)
  ≡ₚ label_path output_dir item :: dst_path image_dst_dir item
       :: (output_paths output_dir image_dst_dir pre
           ++ output_paths output_dir image_dst_dir post).
Proof.
  unfold output_paths. rewrite !fmap_app, !fmap_cons. solve_Permutation.
Qed.

Lemma paths_separate_split output_dir image_src_dir image_dst_dir pre item post :
  paths_separate output_dir image_src_dir image_dst_dir (pre ++ item :: post) →
  let src := src_path image_src_dir item in
  let out := label_path output_dir item in
  let dst := dst_path image_dst_dir item in
  (src ∉ output_paths output_dir image_dst_dir pre)
  ∧ (out ∉ output_paths output_dir image_dst_dir pre)
  ∧ (dst ∉ output_paths output_dir image_dst_dir pre)
  ∧ (out ∉ output_paths output_dir image_dst_dir post)
  ∧ (dst ∉ output_paths output_dir image_dst_dir post)
  ∧ dst ≠ out.
Proof.
  intros [Hnd Hsrc] src out dst.
  specialize (Hsrc item). rewrite output_paths_split in Hnd, Hsrc.
  apply NoDup_cons in Hnd as [Hout Hnd]. apply NoDup_cons in Hnd as [Hdst _].
  rewrite not_elem_of_cons, not_elem_of_app in Hout.
  rewrite not_elem_of_app in Hdst.
  assert (src_path image_src_dir item
          ∉ label_path output_dir item :: dst_path image_dst_dir item
              :: (output_paths output_dir image_dst_dir pre
                  ++ output_paths output_dir image_dst_dir post)) as Hs.
  { apply Hsrc. apply elem_of_app. right. apply elem_of_cons. by left. }
  rewrite !not_elem_of_cons, not_elem_of_app in Hs.
  unfold src, out, dst. split_and!; try tauto.
  intros Heq. destruct Hout as [Hne _]. by apply Hne.
Qed.

(** What the loop leaves at the output paths of each record. *)
Lemma for_each_convert_item_output_files output_dir image_src_dir image_dst_dir m
    data t w t' w' item :
  paths_separate output_dir image_src_dir image_dst_dir data →
  for_each (convert_item output_dir image_src_dir image_dst_dir m) data t w
  = (Ok t', w') →
  item ∈ data →
  match fs w !! src_path image_src_dir item with
  | Some content =>
      fs w' !! label_path output_dir item = Some (labels_text m (labels item))
      ∧ fs w' !! dst_path image_dst_dir item = Some content
  | None =>
      fs w' !! label_path output_dir item = fs w !! label_path output_dir item
      ∧ fs w' !! dst_path image_dst_dir item
        = fs w !! dst_path image_dst_dir item
  end.
Proof.
  intros Hsep Hloop Hitem.
  apply list_elem_of_split in Hitem as (pre & post & ->).
  apply paths_separate_split in Hsep
    as (Hsrc_pre & Hout_pre & Hdst_pre & Hout_post & Hdst_post & Hne).
  apply not_elem_of_output_paths_Forall in Hsrc_pre, Hout_pre, Hdst_pre,
    Hout_post, Hdst_post.
  rewrite for_each_app in Hloop.
  apply bind_Ok_inv in Hloop as (t1 & w1 & Hpre & Hloop). simpl in Hloop.
  apply bind_Ok_inv in Hloop as (t2 & w2 & Hrec & Hpost).
  pose proof (for_each_convert_item_frame _ _ _ _ _ _ _ _ _ _ Hpre Hsrc_pre)
    as Hsrc1.
  pose proof (for_each_convert_item_frame _ _ _ _ _ _ _ _ _ _ Hpre Hout_pre)
    as Hout1.
  pose proof (for_each_convert_item_frame _ _ _ _ _ _ _ _ _ _ Hpre Hdst_pre)
    as Hdst1.
  pose proof (for_each_convert_item_frame _ _ _ _ _ _ _ _ _ _ Hpost Hout_post)
    as Hout3.
  pose proof (for_each_convert_item_frame _ _ _ _ _ _ _ _ _ _ Hpost Hdst_post)
    as Hdst3.
  rewrite Hout3, Hdst3.
  destruct (fs w !! src_path image_src_dir item) as [content|] eqn:Hsrc.
  - apply convert_item_text in Hrec as (Htext & c & Hc & _ & Hcopy);
      [|rewrite Hsrc1; by eexists].
    split; [done|]. rewrite Hcopy by done. congruence.
  - apply convert_item_Ok in Hrec as [(_ & _ & ->)|(c & Hc & _)];
      [by rewrite Hout1, Hdst1|congruence].
Qed.


(** X13: converting twice is converting once: when the output paths are
    separate and none of them is the label file, a second run over the
    same input leaves every file as the first run left it. *)
Theorem converter_second_run_changes_nothing :
  ∀ input_json output_dir image_src_dir image_dst_dir m w data
    result1 w1 result2 w2,
    load_json input_json w = (Ok data, w) →
    paths_separate output_dir image_src_dir image_dst_dir data →
    input_json ∉ output_paths output_dir image_dst_dir data →
    bdd100k_to_yolov8 input_json output_dir image_src_dir image_dst_dir m w
    = (Ok result1, w1) →
    bdd100k_to_yolov8 input_json output_dir image_src_dir image_dst_dir m w1
    = (Ok result2, w2) →
    fs w2 = fs w1.
Proof.
  intros input_json output_dir image_src_dir image_dst_dir m w data
    [[n1 k1] c1] w1 [[n2 k2] c2] w2 Hload Hsep Hin Hrun1 Hrun2.
  apply bdd100k_to_yolov8_Ok in Hrun1
    as (data1 & t1 & v1 & Hload1 & Hloop1 & _ & _ & _ & Hfs1 & _).
  assert (data1 = data) as -> by congruence.
  apply bdd100k_to_yolov8_Ok in Hrun2
    as (data2 & t2 & v2 & Hload2 & Hloop2 & _ & _ & _ & Hfs2 & _).
  pose proof (for_each_convert_item_run _ _ _ _ _ _ _ _ _ Hloop1) as [_ Hframe1].
  pose proof (for_each_convert_item_run _ _ _ _ _ _ _ _ _ Hloop2) as [_ Hframe2].
  simpl in Hframe1, Hframe2.
  assert (data2 = data) as ->.
  { apply load_json_Ok in Hload as (_ & text & Htext & Hparse).
    apply load_json_Ok in Hload2 as (_ & text' & Htext' & Hparse').
    rewrite Hfs1, Hframe1 in Htext' by done. congruence. }
  apply map_eq. intros p. rewrite Hfs2.
  destruct (decide (p ∈ output_paths output_dir image_dst_dir data))
    as [Hp|Hp]; [|by apply Hframe2].
  assert (∃ item, item ∈ data
                  ∧ (p = label_path output_dir item
                     ∨ p = dst_path image_dst_dir item)) as (item & Hitem & Hpath).
  { unfold output_paths in Hp.
    apply elem_of_app in Hp as [Hp|Hp];
      apply list_elem_of_fmap in Hp as (item & -> & Hitem); eauto. }
  pose proof (for_each_convert_item_output_files _ _ _ _ _ _ _ _ _ item
                Hsep Hloop1 Hitem) as Hout1.
  pose proof (for_each_convert_item_output_files _ _ _ _ _ _ _ _ _ item
                Hsep Hloop2 Hitem) as Hout2.
  simpl in Hout1, Hout2.
  assert (fs w1 !! src_path image_src_dir item
          = fs w !! src_path image_src_dir item) as Hsrc.
  { rewrite Hfs1. apply Hframe1. by apply Hsep. }
  rewrite Hsrc in Hout2. rewrite <-Hfs1 in Hout1.
  destruct (fs w !! src_path image_src_dir item) as [content|].
  - destruct Hout1 as [Ho1 Hd1], Hout2 as [Ho2 Hd2].
    destruct Hpath as [->| ->]; congruence.
  - destruct Hout2 as [Ho2 Hd2]. by destruct Hpath as [->| ->].
Qed.

(** ** What the driver prints and returns *)

Lemma count_label_events_mapped out m label :
  (∀ c, category label = Some c → is_Some (mapping_get c m)) →
  count is_print (label_events out m label) = 0.
Proof.
  intros Hm. unfold label_events.
  destruct (poly2d label); [|done].
  destruct (category label) as [c|]; [|done].
  destruct (Hm c eq_refl) as [id ->].
  destruct (label_line m label); [|done]. by rewrite count_cons.
Qed.

Lemma count_label_events_all_mapped out m ls :
  Forall (λ l, ∀ c, category l = Some c → is_Some (mapping_get c m)) ls →
  count is_print (concat (label_events out m <$> ls)) = 0.
Proof.
  induction 1 as [|l ls Hl _ IHl]; [done|].
  csimpl. rewrite count_app, IHl, count_label_events_mapped; done.
Qed.

Lemma for_each_convert_item_no_print output_dir image_src_dir image_dst_dir m
    data t w t' w' :
  covers m data →
  for_each (convert_item output_dir image_src_dir image_dst_dir m) data t w
  = (Ok t', w') →
  ∃ evs, log w' = log w ++ evs ∧ count is_print evs = 0.
Proof.
  revert t w. induction data as [|item data IH]; intros t w Hcov Hrun;
    simpl in Hrun.
  - injection Hrun as <- <-. exists []. by rewrite app_nil_r.
  - apply bind_Ok_inv in Hrun as (t1 & w1 & Hitem & Hrest).
    apply IH in Hrest as (evs & Hlog & Hcount).
    2:{ intros r l c Hr. apply Hcov. apply elem_of_cons. by right. }
    apply convert_item_Ok in Hitem
      as [(_ & _ & ->)|(content & _ & _ & _ & Hlog1 & _)].
    + by exists evs.
    + exists (EvCopy (src_path image_src_dir item) (dst_path image_dst_dir item)
                :: EvOpenW (label_path output_dir item)
                :: concat (label_events (label_path output_dir item) m
                             <$> labels item) ++ evs).
      split; [by rewrite Hlog, Hlog1, <-app_assoc|].
      rewrite !count_cons, count_app, Hcount. simpl.
      assert (count is_print
                (concat (label_events (label_path output_dir item) m
                           <$> labels item)) = 0) as ->; [|done].
      apply count_label_events_all_mapped, Forall_forall.
      intros l Hl c. apply (Hcov item l c); [|done].
      apply elem_of_cons. by left.
Qed.

(** X11: with the mapping the driver passes, the one indexed from the
    same label file, the warning about a category that is not in the
    mapping is never printed: between the creation of the directories
    and the report the converter prints nothing at all. *)
Theorem converter_own_mapping_never_warns :
  ∀ input_json output_dir image_src_dir image_dst_dir w result w' data,
    load_json input_json w = (Ok data, w) →
    bdd100k_to_yolov8 input_json output_dir image_src_dir image_dst_dir
      (update_category_mapping data) w
    = (Ok result, w') →
    ∃ t evs,
      log w' = log w ++ [EvMakedirs output_dir; EvMakedirs image_dst_dir]
                 ++ evs ++ (EvPrint <$> report_texts t)
      ∧ count is_print evs = 0.
Proof.
  intros input_json output_dir image_src_dir image_dst_dir w [[n k] counts] w'
    data Hload Hrun.
  apply bdd100k_to_yolov8_Ok in Hrun
    as (data' & t & w2 & Hload' & Hloop & _ & _ & _ & _ & Hlog).
  assert (data' = data) as -> by congruence.
  apply for_each_convert_item_no_print in Hloop as (evs & Hlog2 & Hcount).
  2:{ intros item label c. apply category_is_mapped. }
  exists t, evs. split; [|done].
  rewrite Hlog, Hlog2. cbn [log]. by rewrite <-!app_assoc.
Qed.

Lemma process_dataset_entries base output_base split image_src_dir w r w' data :
  process_dataset base output_base split image_src_dir w = (Ok r, w') →
  load_json (split_json base split) w = (Ok data, w) →
  initial_json_entries r = length data.
Proof.
  intros Hrun Hload.
  unfold process_dataset in Hrun.
  apply bind_Ok_inv in Hrun as (data' & w0 & Hload0 & Hrun).
  assert (data' = data) as -> by congruence.
  pose proof (load_json_Ok _ _ _ _ Hload0) as [-> _].
  apply bind_Ok_inv in Hrun as ([] & v1 & Hp1 & Hrun).
  rewrite print_run in Hp1. injection Hp1 as <-.
  apply bind_Ok_inv in Hrun as ([] & v2 & Hp2 & Hrun).
  rewrite (for_each_print _ (λ '(category, idx),
             "  " +:+ category +:+ ": " +:+ pretty idx)) in Hp2
    by (intros [??]; reflexivity).
  injection Hp2 as <-.
  apply bind_Ok_inv in Hrun as ([] & v3 & Hp3 & Hrun).
  rewrite print_run in Hp3. injection Hp3 as <-.
  apply bind_Ok_inv in Hrun as ([] & v4 & Hp4 & Hrun).
  rewrite print_run in Hp4. injection Hp4 as <-.
  apply bind_Ok_inv in Hrun as ([[n k] counts] & v5 & Hconv0 & Hrun).
  apply bind_Ok_inv in Hrun as ([] & v6 & Hp6 & Hrun).
  rewrite print_run in Hp6. injection Hp6 as <-.
  apply bind_Ok_inv in Hrun as ([] & v7 & Hp7 & Hrun).
  rewrite print_run in Hp7. injection Hp7 as <-.
  apply bind_Ok_inv in Hrun as ([] & v8 & Hp8 & Hrun).
  rewrite print_run in Hp8. injection Hp8 as <-.
  apply bind_Ok_inv in Hrun as ([] & v9 & Hp9 & Hrun).
  rewrite print_run in Hp9. injection Hp9 as <-.
  apply bind_Ok_inv in Hrun as ([] & u10 & Hp10 & Hrun).
  rewrite print_run in Hp10. injection Hp10 as <-.
  apply bind_Ok_inv in Hrun as ([] & u11 & Hp11 & Hrun).
  rewrite (for_each_print _ (λ category,
             "  " +:+ category +:+ ": "
               +:+ pretty (counter_get category counts) +:+ " instances"))
    in Hp11 by (intros; reflexivity).
  injection Hp11 as <-.
  by injection Hrun as <- <-.
Qed.

(** X12: the numbers [process_dataset] returns fit together: the number
    of entries is the number of records of the label file, the number of
    processed images is the number of distinct filenames among them, and
    neither it nor the number of missing images exceeds the number of
    entries; the mapping returned is the one indexed from that file. *)
Theorem process_dataset_numbers :
  ∀ base output_base split image_src_dir w r w',
    process_dataset base output_base split image_src_dir w = (Ok r, w') →
    ∃ data,
      load_json (split_json base split) w = (Ok data, w)
      ∧ initial_json_entries r = length data
      ∧ processed_count r = size (list_to_set (name <$> data) : gset string)
      ∧ processed_count r ≤ initial_json_entries r
      ∧ missing_count r ≤ initial_json_entries r
      ∧ split_category_mapping r = update_category_mapping data.
Proof.
  intros base output_base split image_src_dir w r w' Hrun.
  pose proof Hrun as Hrun'.
  apply process_dataset_Ok in Hrun'
    as (data & w1 & w2 & Hload & Hfs & Hconv & Hmap & _).
  exists data. split; [done|].
  pose proof (process_dataset_entries _ _ _ _ _ _ _ _ Hrun Hload) as Hentries.
  apply bdd100k_to_yolov8_Ok in Hconv
    as (data' & t & w3 & Hload' & Hloop & Hn & Hk & _).
  assert (data' = data) as ->.
  { apply load_json_Ok in Hload as (_ & text & Htext & Hparse).
    apply load_json_Ok in Hload' as (_ & text' & Htext' & Hparse').
    rewrite Hfs in Htext'. congruence. }
  apply for_each_convert_item_Ok in Hloop
    as (Hproc & _ & (evs & _ & _ & Hlen) & _).
  simpl in Hproc, Hlen. rewrite (left_id_L ∅ (∪)) in Hproc.
  rewrite Hentries, Hn, Hk, Hproc.
  pose proof (size_list_to_set_le (name <$> data)) as Hle.
  rewrite length_fmap in Hle.
  split_and!; [done|done|done|lia|done].
Qed.


End FurtherOutputs.

(** ** The further properties on the example inputs *)

Example validation_ids_differ_from_manifest :
  let w' := (main (H := example_lib) main_world_val).2 in
  fs w' !! "D:\DataSet\BDD100K\BDD100k_YOLO/data.yaml"
  = Some (NL +:+ "train: D:\DataSet\BDD100K\BDD100k_YOLO/images/train"
            +:+ NL +:+ "val: D:\DataSet\BDD100K\BDD100k_YOLO/images/val"
            +:+ NL +:+ NL +:+ "nc: 2"
            +:+ NL +:+ "names: ['bike', 'car']" +:+ NL)
  ∧ fs w' !! "D:\DataSet\BDD100K\BDD100k_YOLO/labels/val/a.txt"
    = Some (labels_text [("car", 0)] [car_label]).
Proof. vm_compute. done. Qed.

Lemma converter_deletes_nothing_witness :
  let w := example_world "[a, b]" in
  let w' := (bdd100k_to_yolov8 (H := example_lib) "in.json" "labels" "src"
               "images" car_mapping w).2 in
  is_Some (fs w' !! "src/a.jpg").
Proof.
  intros w w'.
  apply (converter_deletes_nothing (H := example_lib) "in.json" "labels" "src"
           "images" car_mapping w
           (bdd100k_to_yolov8 (H := example_lib) "in.json" "labels" "src"
              "images" car_mapping w).1 w' "src/a.jpg").
  - unfold w'. by destruct (bdd100k_to_yolov8 _ _ _ _ _ _).
  - by eexists.
Defined.

Lemma converter_changes_only_outputs_witness :
  let w := example_world "[a, b]" in
  let w' := (bdd100k_to_yolov8 (H := example_lib) "in.json" "labels" "src"
               "images" car_mapping w).2 in
  fs w' !! "in.json" = fs w !! "in.json".
Proof.
  intros w w'.
  apply (converter_changes_only_outputs (H := example_lib) "in.json" "labels"
           "src" "images" car_mapping w
           (bdd100k_to_yolov8 (H := example_lib) "in.json" "labels" "src"
              "images" car_mapping w).1 w' "in.json").
  - unfold w'. by destruct (bdd100k_to_yolov8 _ _ _ _ _ _).
  - intros data Hload.
    assert (data = [record_a; record_b]) as ->.
    { vm_compute in Hload. by injection Hload as <-. }
    apply (bool_decide_unpack _). vm_compute. exact I.
Defined.

Lemma converter_all_images_missing_witness :
  let w := example_world "[b]" in
  bdd100k_to_yolov8 (H := example_lib) "in.json" "labels" "src" "images"
    car_mapping w
  = (Ok (size (list_to_set (name <$> [record_b]) : gset string),
         length [record_b], []),
     {| fs := fs w;
        log := log w ++ [EvMakedirs "labels"; EvMakedirs "images"]
                 ++ (EvPrint <$> report_texts
                       {| categories_in_json := [];
                          processed_images := list_to_set (name <$> [record_b]);
                          missing_images := name <$> [record_b] |}) |}).
Proof.
  intros w.
  apply (converter_all_images_missing (H := example_lib) "in.json" "labels"
           "src" "images" car_mapping w [record_b]).
  - reflexivity.
  - constructor; [reflexivity|constructor].
Defined.

Lemma category_counts_polygon_labels_witness :
  let w := example_world "[a, b]" in
  ∃ data,
    load_json (H := example_lib) "in.json" w = (Ok data, w)
    ∧ ∀ c, counter_get c [("car", 1)] ≤ polygon_instances c (all_labels data)
           ∧ (1 = 0 →
              counter_get c [("car", 1)]
              = polygon_instances c (all_labels data)).
Proof.
  intros w.
  apply (category_counts_polygon_labels (H := example_lib) "in.json" "labels"
           "src" "images" car_mapping w 2 1 [("car", 1)]
           (bdd100k_to_yolov8 (H := example_lib) "in.json" "labels" "src"
              "images" car_mapping w).2).
  vm_compute. reflexivity.
Defined.

Lemma converter_in_place_needs_no_image_witness :
  let w := example_world "[b]" in
  ∃ data,
    load_json (H := example_lib) "in.json" w = (Ok data, w)
    ∧ ∀ item, item ∈ data → fs w !! src_path (H := example_lib) "src" item = None.
Proof.
  intros w.
  apply (converter_in_place_needs_no_image (H := example_lib) "in.json"
           "labels" "src" car_mapping w (1, 1, [])
           (bdd100k_to_yolov8 (H := example_lib) "in.json" "labels" "src"
              "src" car_mapping w).2).
  vm_compute. reflexivity.
Defined.

Lemma category_mapping_depends_on_names_witness :
  update_category_mapping [record_a; record_b; record_a]
  = update_category_mapping [record_b; record_a].
Proof.
  apply category_mapping_depends_on_names.
  intros c. split; intros (item & label & Hitem & Hlabel & Hc);
    exists item, label; (split; [|done]);
    revert Hitem; rewrite !elem_of_cons, !elem_of_nil; tauto.
Defined.

Lemma example_paths_separate :
  paths_separate (H := example_lib) "labels" "src" "images" [record_a; record_b].
Proof.
  split.
  - apply (bool_decide_unpack _). vm_compute. exact I.
  - intros item Hitem.
    apply elem_of_cons in Hitem as [->|Hitem];
      [|apply elem_of_cons in Hitem as [->|Hitem];
        [|by apply elem_of_nil in Hitem]];
      apply (bool_decide_unpack _); vm_compute; exact I.
Defined.


Lemma converter_second_run_changes_nothing_witness :
  let run := bdd100k_to_yolov8 (H := example_lib) "in.json" "labels" "src"
               "images" car_mapping in
  let w1 := (run (example_world "[a, b]")).2 in
  fs (run w1).2 = fs w1.
Proof.
  intros run w1.
  apply (converter_second_run_changes_nothing (H := example_lib) "in.json"
           "labels" "src" "images" car_mapping (example_world "[a, b]")
           [record_a; record_b] (2, 1, [("car", 1)]) w1
           (2, 1, [("car", 1)]) (run w1).2).
  - reflexivity.
  - exact example_paths_separate.
  - apply (bool_decide_unpack _). vm_compute. exact I.
  - vm_compute. reflexivity.
  - vm_compute. reflexivity.
Defined.

Lemma converter_own_mapping_never_warns_witness :
  let w := example_world "[a, b]" in
  let w' := (bdd100k_to_yolov8 (H := example_lib) "in.json" "labels" "src"
               "images" (update_category_mapping [record_a; record_b]) w).2 in
  ∃ t evs,
    log w' = log w ++ [EvMakedirs "labels"; EvMakedirs "images"]
               ++ evs ++ (EvPrint <$> report_texts t)
    ∧ count is_print evs = 0.
Proof.
  intros w w'.
  apply (converter_own_mapping_never_warns (H := example_lib) "in.json"
           "labels" "src" "images" w (2, 1, [("car", 1)]) w'
           [record_a; record_b]).
  - reflexivity.
  - vm_compute. reflexivity.
Defined.

Lemma process_dataset_numbers_witness :
  ∃ r w',
    process_dataset (H := example_lib) base_dir output_base_dir "train"
      train_images_src_dir main_world = (Ok r, w')
    ∧ processed_count r ≤ initial_json_entries r
    ∧ missing_count r ≤ initial_json_entries r.
Proof.
  destruct (process_dataset (H := example_lib) base_dir output_base_dir "train"
              train_images_src_dir main_world) as [[r|e] w'] eqn:Hrun;
    [|by vm_compute in Hrun].
  exists r, w'. split; [reflexivity|].
  destruct (process_dataset_numbers (H := example_lib) _ _ _ _ _ _ _ Hrun)
    as (data & _ & _ & _ & Hprocessed & Hmissing & _).
  by split.
Defined.



Lemma converter_unreadable_input_witness :
  bdd100k_to_yolov8 (H := example_lib) "in.json" "labels" "src" "images"
    car_mapping empty_world
  = (Raise (FileNotFoundError "in.json"), empty_world)
  ∧ bdd100k_to_yolov8 (H := example_lib) "in.json" "labels" "src" "images"
      car_mapping (example_world "{")
    = (Raise JSONDecodeError, example_world "{").
Proof.
  split.
  - apply (converter_unreadable_input (H := example_lib) "in.json" "labels"
             "src" "images" car_mapping empty_world).
    reflexivity.
  - apply (converter_unreadable_input (H := example_lib) "in.json" "labels"
             "src" "images" car_mapping (example_world "{") : _ ∧ _)
      with (text := "{"); reflexivity.
Defined.

Lemma main_label_file_missing_witness :
  main (H := example_lib) empty_world
  = (Raise (FileNotFoundError (split_json (H := example_lib) base_dir "train")),
     empty_world)
  ∧ ∃ w1,
      main (H := example_lib) train_only_world
      = (Raise (FileNotFoundError (split_json (H := example_lib) base_dir "val")),
         w1)
      ∧ fs w1 !! path_join (PyLib := example_lib) output_base_dir "data.yaml"
        = None.
Proof.
  split.
  - apply (main_label_file_missing (H := example_lib) empty_world).
    reflexivity.
  - destruct (process_dataset (H := example_lib) base_dir output_base_dir
                "train" train_images_src_dir train_only_world)
      as [[r|e] w1] eqn:Hrun; [|by vm_compute in Hrun].
    exists w1. split.
    + apply (proj2 (main_label_file_missing (H := example_lib)
                      train_only_world) r w1 Hrun).
      vm_compute in Hrun. injection Hrun as _ <-. vm_compute. reflexivity.
    + vm_compute in Hrun. injection Hrun as _ <-. vm_compute. reflexivity.
Defined.
